(** * Automatic persisted queries: the negotiation of [onParse] and its store

    A shallow embedding of
    [packages/plugins/automatic-persisted-queries/src/plugin.ts] and
    [packages/plugins/automatic-persisted-queries/src/store.ts].

    JavaScript values are modelled by a small inductive type: the values
    that a JSON request body can carry in the [persistedQuery] extension
    (numbers are integers, as the wire format of the protocol has them).
    Exceptions are explicit: a function that can [throw] returns a
    [Completion]; the body of [onParse], which also talks to the store, to
    the request context and to the parser, runs in a small state and
    exception monad over a [World]. *)

From Stdlib Require Import ZArith Lia Ascii String.
From Stdlib.Strings Require Import Byte.
From stdpp Require Import base option list strings gmap.

Local Open Scope string_scope.

(** ** JavaScript values *)

Inductive JsPrimitive :=
| JsUndefined
| JsNull
| JsBoolean (b : bool)
| JsNumber (n : Z)
| JsString (s : string).

#[global] Instance JsPrimitive_eq_dec : EqDecision JsPrimitive.
Proof. solve_decision. Defined.

(** A value of the request body: a primitive, or an object whose own
    properties hold primitives. *)
Inductive JsValue :=
| JsPrim (p : JsPrimitive)
| JsObject (fields : gmap string JsPrimitive).

(** [typeof v === 'number'] *)
Definition typeof_number (v : JsPrimitive) : bool :=
  match v with JsNumber _ => true | _ => false end.

(** ToBoolean: what [if (v)] and [!v] look at. *)
Definition truthy (v : JsPrimitive) : bool :=
  match v with
  | JsUndefined | JsNull => false
  | JsBoolean b => b
  | JsNumber n => negb (n =? 0)%Z
  | JsString s => negb (String.eqb s "")
  end.

Definition truthy_value (v : JsValue) : bool :=
  match v with
  | JsPrim p => truthy p
  | JsObject _ => true
  end.

(** [a === b] on primitives. *)
Definition strict_eq (a b : JsPrimitive) : bool := bool_decide (a = b).

(** [a ?? b] on primitives. *)
Definition nullish_or (a b : JsPrimitive) : JsPrimitive :=
  match a with
  | JsUndefined | JsNull => b
  | _ => a
  end.

(** [o[k]]: the property [k] of a value; [undefined] when [o] has no such
    property. The only keys read here are [version] and [<algorithm>Hash],
    which no primitive has. *)
Definition get_property (o : JsValue) (k : string) : JsPrimitive :=
  match o with
  | JsObject fields => default JsUndefined (fields !! k)
  | JsPrim _ => JsUndefined
  end.

(** ** Errors *)

Record PersistedQueryError := {
  message : string;
  code : string
}.

Module errors.
Definition NOT_SUPPORTED := "PersistedQueryNotSupported".
Definition NOT_FOUND := "PersistedQueryNotFound".
Definition HASH_MISSING := "PersistedQueryHashMissing".
Definition INVALID_VERSION := "Unsupported persisted query version".
Definition HASH_MISMATCH := "PersistedQueryHashMismatch".
End errors.

Module codes.
Definition NOT_SUPPORTED := "PERSISTED_QUERY_NOT_SUPPORTED".
Definition NOT_FOUND := "PERSISTED_QUERY_NOT_FOUND".
Definition HASH_MISSING := "PERSISTED_QUERY_HASH_MISSING".
Definition INVALID_VERSION := "PERSISTED_QUERY_INVALID_VERSION".
Definition HASH_MISMATCH := "PERSISTED_QUERY_HASH_MISMATCH".
End codes.

(** What a [throw] carries: an error of the plugin, or whatever the
    parser handed to [onParse] raises on a text it rejects. *)
Inductive Exception :=
| PersistedQuery_error (e : PersistedQueryError)
| Parser_error (msg : string).

Inductive Completion (A : Type) :=
| Normal (a : A)
| Throw (e : Exception).
Arguments Normal {A} a.
Arguments Throw {A} e.

Definition throw_pq {A} (msg c : string) : Completion A :=
  Throw (PersistedQuery_error {| message := msg; code := c |}).

(** The code of a completion that threw a plugin error. *)
Definition thrown_code {A} (c : Completion A) : option string :=
  match c with
  | Throw (PersistedQuery_error e) => Some (code e)
  | _ => None
  end.

(** ** Hash algorithms and [generateHash] *)

Definition DEFAULT_PROTOCOL_VERSION : Z := 1.
Definition PERSISTED_QUERY_EXTENSION_KEY : string := "persistedQuery".

Inductive HashAlgorithm := sha256 | sha512 | sha1 | md5.

Definition ALGORITHMS : list HashAlgorithm := [sha256; sha512; sha1; md5].

Definition DEFAULT_HASH_ALGORITHM : HashAlgorithm := sha256.

(** [`${algorithm}`] *)
Definition algorithm_name (a : HashAlgorithm) : string :=
  match a with
  | sha256 => "sha256"
  | sha512 => "sha512"
  | sha1 => "sha1"
  | md5 => "md5"
  end.

(** Size in bytes of the digest of each algorithm. *)
Definition digest_size (a : HashAlgorithm) : nat :=
  match a with
  | sha256 => 32
  | sha512 => 64
  | sha1 => 20
  | md5 => 16
  end.

Definition hex_digit (n : N) : ascii :=
  match n with
  | 0 => "0" | 1 => "1" | 2 => "2" | 3 => "3" | 4 => "4" | 5 => "5"
  | 6 => "6" | 7 => "7" | 8 => "8" | 9 => "9" | 10 => "a" | 11 => "b"
  | 12 => "c" | 13 => "d" | 14 => "e" | _ => "f"
  end%N%char.

(** [digest('hex')]: two lower-case digits per byte. *)
Fixpoint hex (bytes : list byte) : string :=
  match bytes with
  | [] => ""
  | b :: rest =>
      let n := Byte.to_N b in
      String (hex_digit (n / 16)) (String (hex_digit (n mod 16)) (hex rest))
  end.

(** ** The request *)

Record RequestBody := {
  extensions : option (gmap string JsValue)
}.

Record HttpRequest := {
  body : option RequestBody
}.

(** The part of the context that the default extractor reads; [None] is
    a property that is [undefined] or [null]. *)
Record DefaultContext := {
  request : option HttpRequest;
  req : option HttpRequest
}.

Record PersistedQuery := {
  hash : JsPrimitive;
  version : JsPrimitive
}.

(** [(ctx.request ?? ctx.req)?.body?.extensions?.[PERSISTED_QUERY_EXTENSION_KEY]] *)
Definition persistedQuery_extension (ctx : DefaultContext) : JsValue :=
  let r := match request ctx with Some r => Some r | None => req ctx end in
  let body := match r with Some r => body r | None => None end in
  match body with
  | Some {| extensions := Some ext |} =>
      default (JsPrim JsUndefined) (ext !! PERSISTED_QUERY_EXTENSION_KEY)
  | _ => JsPrim JsUndefined
  end.

Definition getPersistedQueryFromContext (context : DefaultContext)
    (algorithm : HashAlgorithm) : Completion (option PersistedQuery) :=
  let pq := persistedQuery_extension context in
  if truthy_value pq then
    let key := algorithm_name algorithm +:+ "Hash" in
    if negb (typeof_number (get_property pq "version"))
       && strict_eq (get_property pq key) JsUndefined
    then throw_pq errors.NOT_FOUND codes.NOT_FOUND
    else
      let hash := get_property pq key in
      let version := nullish_or (get_property pq "version") (JsNumber 0) in
      Normal (Some {| hash := hash; version := version |})
  else Normal None.

(** ** The bounded cache behind the default store

    [store.ts] builds its cache with [LRU(maxSize, ttl)] of the package
    [tiny-lru], whose code is not part of these sources. *)

Section LRU.
Context {K V : Type} `{EqDecision K}.

(** Modelled from the spec: the entry of the cache that [get] and [set]
    of [tiny-lru] (missing here) work on; sections 3 and 4.2 of the
    specification give it a value, the time of its insertion and the time
    of its last access. *)
Record CacheEntry := {
  key : K;
  value : V;
  insertedAt : Z;
  lastAccessedAt : Z
}.

(** Modelled from the spec: the cache object returned by [LRU(max, ttl)]
    (missing here): a capacity, a time-to-live in milliseconds, and the
    entries, kept in the order of their insertion. *)
Record LRU := {
  capacity : nat;
  ttl : Z;
  items : list CacheEntry
}.

(** The cache [c] with the entries [l]. *)
Definition with_items (c : LRU) (l : list CacheEntry) : LRU :=
  {| capacity := capacity c; ttl := ttl c; items := l |}.

Definition has_key (k : K) (e : CacheEntry) : bool := bool_decide (key e = k).

(** Modelled from the spec: the lookup of a key among the entries (the
    hash map of [tiny-lru], missing here). *)
Definition find_entry (k : K) (l : list CacheEntry) : option CacheEntry :=
  List.find (has_key k) l.

(** Modelled from the spec: the removal of the entry of a key, which the
    lazy expiry of section 3 and an overwrite need. *)
Definition remove_key (k : K) (l : list CacheEntry) : list CacheEntry :=
  List.filter (fun e => negb (has_key k e)) l.

(** Modelled from the spec: the refresh of the recency of the entry of a
    key ("recency order reflects access order", section 3). *)
Definition touch (now : Z) (k : K) (l : list CacheEntry) : list CacheEntry :=
  List.map (fun e =>
    if has_key k e
    then {| key := key e; value := value e; insertedAt := insertedAt e;
            lastAccessedAt := now |}
    else e) l.

(** Modelled from the spec: the entry that a [set] at the time [now]
    inserts; both of its times are [now]. *)
Definition fresh_entry (now : Z) (k : K) (v : V) : CacheEntry :=
  {| key := k; value := v; insertedAt := now; lastAccessedAt := now |}.

(** Where an entry comes from: the time, the key and the value of its
    insertion. *)
Definition origin (e : CacheEntry) : Z * K * V :=
  (insertedAt e, key e, value e).

(** Modelled from the spec: an entry is expired once its age, measured
    from insertion, is past the time-to-live (section 3; the test of
    [tiny-lru] is missing here). *)
Definition expired (c : LRU) (now : Z) (e : CacheEntry) : bool :=
  (insertedAt e + ttl c <? now)%Z.

(** Modelled from the spec: the choice of the entry to evict (done inside
    [set] of [tiny-lru], missing here): the least-recently-used entry by
    [lastAccessedAt], ties broken by insertion order. The result is the
    victim and the entries that stay. *)
Fixpoint evict (l : list CacheEntry) : option (CacheEntry * list CacheEntry) :=
  match l with
  | [] => None
  | e :: rest =>
      match evict rest with
      | Some (v, rest') =>
          if (lastAccessedAt v <? lastAccessedAt e)%Z
          then Some (v, e :: rest')
          else Some (e, rest)
      | None => Some (e, rest)
      end
  end.

(** Modelled from the spec: [cache.get(key)] of [tiny-lru] (missing
    here), at the time [now] of the wall clock. A miss is [None]: the key
    was never inserted, or its entry has expired, and then the entry is
    removed. A hit refreshes the recency of the entry. *)
Definition LRU_get (now : Z) (k : K) (c : LRU) : option V * LRU :=
  match find_entry k (items c) with
  | None => (None, c)
  | Some e =>
      if expired c now e
      then (None, with_items c (remove_key k (items c)))
      else (Some (value e), with_items c (touch now k (items c)))
  end.

(** Modelled from the spec: [cache.set(key, value)] of [tiny-lru]
    (missing here), at the time [now]. It inserts or overwrites (an
    overwrite is a new insertion: it is what makes a [put] followed by a
    [get] return the document), refreshes recency, and when the insertion
    pushes the entry count over the capacity the least-recently-used entry
    is evicted. The second component is the evicted entry, if any. *)
Definition LRU_set_evicting (now : Z) (k : K) (v : V) (c : LRU)
    : LRU * option CacheEntry :=
  let fresh := fresh_entry now k v in
  let items' := (remove_key k (items c) ++ [fresh])%list in
  if (capacity c <? length items')%nat then
    match evict items' with
    | Some (victim, rest) => (with_items c rest, Some victim)
    | None => (with_items c items', None)
    end
  else (with_items c items', None).

(** Modelled from the spec: [cache.set(key, value)], without the report of
    the eviction. *)
Definition LRU_set (now : Z) (k : K) (v : V) (c : LRU) : LRU :=
  fst (LRU_set_evicting now k v c).

(** Modelled from the spec: [LRU(max, ttl)] of [tiny-lru] (missing
    here): an empty cache of that capacity and time-to-live. *)
Definition LRU_create (max : nat) (ttl : Z) : LRU :=
  {| capacity := max; ttl := ttl; items := [] |}.

End LRU.

Arguments CacheEntry : clear implicits.
Arguments LRU : clear implicits.

(** ** The plugin *)

Section Plugin.

(** The parsed form of a query is opaque to the plugin. *)
Context {DocumentNode : Type}.

(** [crypto.createHash(algo).update(text, 'utf8').digest()]: the digest
    of the UTF-8 encoding of a text, as bytes. *)
Variable createHash : HashAlgorithm -> string -> list byte.

Definition generateHash (query : string) (algo : HashAlgorithm) : string :=
  hex (createHash algo query).

(** *** [store.ts] *)

(** [string | DocumentNode] *)
Inductive StoredDocument :=
| Text (s : string)
| Document (d : DocumentNode).

(** [!cachedQuery], for what [get] returns ([None] is [null] or
    [undefined]): an object is truthy, a text is truthy unless empty. *)
Definition document_truthy (d : option StoredDocument) : bool :=
  match d with
  | None => false
  | Some (Text s) => truthy (JsString s)
  | Some (Document _) => true
  end.

(** The two methods of a store, over the state [St] that the store object
    hides. The first argument is the time on the wall clock at the call,
    which a store may read. *)
Record PersistedQueryStore (St : Type) := {
  get : Z -> JsPrimitive -> St -> option StoredDocument * St;
  put : Z -> JsPrimitive -> StoredDocument -> St -> St
}.
Arguments get {St} _ _ _ _.
Arguments put {St} _ _ _ _ _.

(** A store object: its methods and the state it starts in. *)
Record StoreObject := {
  St : Type;
  methods : PersistedQueryStore St;
  initial : St
}.

Definition DEFAULT_MAX : nat := 1000.
Definition DEFAULT_TTL : Z := 3600000.

(** [createLRUStore(maxSize?, ttl?)]; [None] is an argument left out. The
    capacity is a count of entries. A miss of the cache, [undefined], is
    turned into [null]: both are [None] here. *)
Definition createLRUStore (maxSize : option nat) (ttl : option Z) : StoreObject :=
  let maxSize := default DEFAULT_MAX maxSize in
  let ttl := default DEFAULT_TTL ttl in
  let cache := LRU_create maxSize ttl in
  {| St := LRU JsPrimitive StoredDocument;
     methods :=
       {| get now hash cache := LRU_get now hash cache;
          put now hash query cache := LRU_set now hash query cache |};
     initial := cache |}.

(** *** [plugin.ts] *)

Record UseAutomaticPersistedQueryOptions := {
  opt_hashAlgorithm : option HashAlgorithm;
  opt_version : option Z;
  opt_resolvePersistedQuery : option (DefaultContext -> option PersistedQuery);
  opt_store : option StoreObject;
  opt_writeToContext : option bool
}.

(** [{}] *)
Definition no_options : UseAutomaticPersistedQueryOptions :=
  {| opt_hashAlgorithm := None; opt_version := None;
     opt_resolvePersistedQuery := None; opt_store := None;
     opt_writeToContext := None |}.

(** What the closure of the plugin holds once the options are read. *)
Record Plugin := {
  store : StoreObject;
  expectedVersion : Z;
  hashAlgorithm : HashAlgorithm;
  writeToContext : bool;
  getPersistedQuery : DefaultContext -> Completion (option PersistedQuery)
}.

Definition useAutomaticPersistedQueries
    (options : option UseAutomaticPersistedQueryOptions) : Plugin :=
  let o := default no_options options in
  let _store := opt_store o in
  let expectedVersion := default DEFAULT_PROTOCOL_VERSION (opt_version o) in
  let _resolvePersistedQuery := opt_resolvePersistedQuery o in
  let hashAlgorithm := default DEFAULT_HASH_ALGORITHM (opt_hashAlgorithm o) in
  let store := default (createLRUStore None None) _store in
  let writeToContext :=
    match options with
    | Some {| opt_writeToContext := Some false |} => false
    | _ => true
    end in
  let getPersistedQuery :=
    match _resolvePersistedQuery with
    | Some resolve => fun context => Normal (resolve context)
    | None => fun context => getPersistedQueryFromContext context hashAlgorithm
    end in
  {| store := store; expectedVersion := expectedVersion;
     hashAlgorithm := hashAlgorithm; writeToContext := writeToContext;
     getPersistedQuery := getPersistedQuery |}.

(** [params.source]: a text, or a [Source] object whose [body] may be
    missing. *)
Inductive Source :=
| Source_string (s : string)
| Source_object (body : option string).

(** What [onParse] receives. [parseFn] returns the document of a text,
    or throws a syntax error with a message. *)
Record OnParseEventPayload := {
  context : DefaultContext;
  parseFn : string -> DocumentNode + string;
  source : Source
}.

Definition call_parseFn (payload : OnParseEventPayload) (text : string)
    : Completion DocumentNode :=
  match parseFn payload text with
  | inl document => Normal document
  | inr msg => Throw (Parser_error msg)
  end.

(** The argument [{ result }] of the function that [onParse] returns. *)
Inductive AfterParseResult :=
| result_nullish
| result_error (e : Exception)
| result_document (d : DocumentNode).

Inductive StoreCall :=
| Call_get (hash : JsPrimitive)
| Call_put (hash : JsPrimitive) (query : StoredDocument).

(** Everything [onParse] can read or change besides its arguments: the
    wall clock, the state of the store and the calls made to it (latest
    last), the property of the request context under [symbolInContext]
    written by [extendContext], and the document handed to
    [setParsedDocument]. *)
Record World (S : Type) := {
  now : Z;
  store_state : S;
  store_calls : list StoreCall;
  context_symbol : option Source;
  parsed_document : option DocumentNode
}.
Arguments now {S} _.
Arguments store_state {S} _.
Arguments store_calls {S} _.
Arguments context_symbol {S} _.
Arguments parsed_document {S} _.

(** State and exceptions: what a [throw] leaves behind stays. *)
Definition M (S A : Type) : Type := World S -> Completion A * World S.

Definition ret {S A} (a : A) : M S A := fun w => (Normal a, w).

Definition throw {S A} (e : Exception) : M S A := fun w => (Throw e, w).

Definition bind {S A B} (m : M S A) (k : A -> M S B) : M S B :=
  fun w =>
    match m w with
    | (Normal a, w') => k a w'
    | (Throw e, w') => (Throw e, w')
    end.

Definition lift {S A} (c : Completion A) : M S A := fun w => (c, w).

Definition throw_error {S A} (msg c : string) : M S A := lift (throw_pq msg c).

Definition store_get {S} (s : PersistedQueryStore S) (hash : JsPrimitive)
    : M S (option StoredDocument) :=
  fun w =>
    let (r, st) := get s (now w) hash (store_state w) in
    (Normal r,
     {| now := now w; store_state := st;
        store_calls := (store_calls w ++ [Call_get hash])%list;
        context_symbol := context_symbol w;
        parsed_document := parsed_document w |}).

Definition store_put {S} (s : PersistedQueryStore S) (hash : JsPrimitive)
    (query : StoredDocument) : M S unit :=
  fun w =>
    (Normal tt,
     {| now := now w; store_state := put s (now w) hash query (store_state w);
        store_calls := (store_calls w ++ [Call_put hash query])%list;
        context_symbol := context_symbol w;
        parsed_document := parsed_document w |}).

(** [extendContext({ [symbolInContext]: v })] *)
Definition extendContext {S} (v : Source) : M S unit :=
  fun w =>
    (Normal tt,
     {| now := now w; store_state := store_state w;
        store_calls := store_calls w;
        context_symbol := Some v;
        parsed_document := parsed_document w |}).

Definition setParsedDocument {S} (d : DocumentNode) : M S unit :=
  fun w =>
    (Normal tt,
     {| now := now w; store_state := store_state w;
        store_calls := store_calls w;
        context_symbol := context_symbol w;
        parsed_document := Some d |}).

Local Notation "'let*' x ':=' m 'in' k" := (bind m (fun x => k))
  (at level 10, x name, m at level 100, k at level 200).
Local Notation "m ';;' k" := (bind m (fun _ => k))
  (at level 100, k at level 200, right associativity).

(** [typeof source === 'string' ? source : source.body] *)
Definition query_of_source (source : Source) : option string :=
  match source with
  | Source_string s => Some s
  | Source_object body => body
  end.

(** [typeof version === 'number' && version !== expectedVersion] *)
Definition version_mismatch (version : JsPrimitive) (expectedVersion : Z) : bool :=
  typeof_number version && negb (strict_eq version (JsNumber expectedVersion)).

(** The function that [onParse] returns closes over [queryHash]. *)
Inductive AfterParseHook :=
| after_parse (queryHash : JsPrimitive).

Definition onParse (p : Plugin) (payload : OnParseEventPayload)
    : M (St (store p)) (option AfterParseHook) :=
  let store := methods (store p) in
  let* persistedQuery := lift (getPersistedQuery p (context payload)) in
  let query := query_of_source (source payload) in
  match persistedQuery with
  | Some persistedQuery =>
      let hash := hash persistedQuery in
      let version := version persistedQuery in
      if version_mismatch version (expectedVersion p)
      then throw_error errors.INVALID_VERSION codes.INVALID_VERSION
      else
        let queryHash := hash in
        match query with
        | None =>
            if negb (truthy queryHash)
            then throw_error errors.HASH_MISSING codes.HASH_MISSING
            else
              let* cachedQuery := store_get store queryHash in
              if negb (document_truthy cachedQuery)
              then throw_error errors.NOT_FOUND codes.NOT_FOUND
              else
                let* result :=
                  match cachedQuery with
                  | Some (Text cachedQuery) => lift (call_parseFn payload cachedQuery)
                  | Some (Document cachedQuery) => ret cachedQuery
                  | None => (* not reached: [None] is falsy *)
                      throw_error errors.NOT_FOUND codes.NOT_FOUND
                  end in
                (if writeToContext p
                 then extendContext (source payload)
                 else ret tt);;
                setParsedDocument result;;
                ret None
        | Some query =>
            let computedQueryHash := generateHash query (hashAlgorithm p) in
            if negb (strict_eq queryHash (JsString computedQueryHash))
            then
              throw_error
                ("Provided " +:+ algorithm_name (hashAlgorithm p)
                   +:+ " hash does not match query")
                codes.HASH_MISMATCH
            else ret (Some (after_parse queryHash))
        end
  | None =>
      match query with
      | Some query =>
          if truthy (JsString query)
          then ret (Some (after_parse
                            (JsString (generateHash query (hashAlgorithm p)))))
          else
            throw_error
              "GraphQL operations must contain a non-empty `query` or a `persistedQuery` extension."
              "INTERNAL_SERVER_ERROR"
      | None =>
          throw_error
            "GraphQL operations must contain a non-empty `query` or a `persistedQuery` extension."
            "INTERNAL_SERVER_ERROR"
      end
  end.

(** [({ result }) => { ... }], the function returned by [onParse]. *)
Definition run_after_parse (p : Plugin) (hook : AfterParseHook)
    (result : AfterParseResult) : M (St (store p)) unit :=
  let store := methods (store p) in
  let 'after_parse queryHash := hook in
  match result with
  | result_nullish | result_error _ => ret tt
  | result_document result =>
      if truthy queryHash
      then store_put store queryHash (Document result)
      else ret tt
  end.

(** *** Sequences of calls to a store *)

Inductive StoreOp :=
| Op_get (now : Z) (hash : JsPrimitive)
| Op_put (now : Z) (hash : JsPrimitive) (query : StoredDocument).

Definition apply_op {S} (s : PersistedQueryStore S) (st : S) (op : StoreOp) : S :=
  match op with
  | Op_get now hash => snd (get s now hash st)
  | Op_put now hash query => put s now hash query st
  end.

Definition run_ops {S} (s : PersistedQueryStore S) (ops : list StoreOp) (st : S) : S :=
  fold_left (apply_op s) ops st.

(** The [put] calls among the calls made to a store. *)
Definition puts_of (calls : list StoreCall) : list (JsPrimitive * StoredDocument) :=
  omap (fun c =>
          match c with
          | Call_put hash query => Some (hash, query)
          | Call_get _ => None
          end) calls.

End Plugin.

Arguments StoredDocument : clear implicits.
Arguments PersistedQueryStore : clear implicits.
Arguments StoreObject : clear implicits.
Arguments Plugin : clear implicits.
Arguments UseAutomaticPersistedQueryOptions : clear implicits.
Arguments OnParseEventPayload : clear implicits.
Arguments AfterParseResult : clear implicits.
Arguments StoreCall : clear implicits.
Arguments StoreOp : clear implicits.
Arguments World : clear implicits.
Arguments get {DocumentNode St} _ _ _ _.
Arguments put {DocumentNode St} _ _ _ _ _.
Arguments now {DocumentNode S} _.
Arguments store_state {DocumentNode S} _.
Arguments store_calls {DocumentNode S} _.
Arguments context_symbol {DocumentNode S} _.
Arguments parsed_document {DocumentNode S} _.

(** The errors that [onParse] throws. *)
Definition HASH_MISMATCH_error {D} (p : Plugin D) : Exception :=
  PersistedQuery_error
    {| message := "Provided " +:+ algorithm_name (hashAlgorithm p)
                    +:+ " hash does not match query";
       code := codes.HASH_MISMATCH |}.

Definition INVALID_VERSION_error : Exception :=
  PersistedQuery_error
    {| message := errors.INVALID_VERSION; code := codes.INVALID_VERSION |}.

Definition HASH_MISSING_error : Exception :=
  PersistedQuery_error
    {| message := errors.HASH_MISSING; code := codes.HASH_MISSING |}.

Definition NOT_FOUND_error : Exception :=
  PersistedQuery_error
    {| message := errors.NOT_FOUND; code := codes.NOT_FOUND |}.

Definition INTERNAL_error : Exception :=
  PersistedQuery_error
    {| message := "GraphQL operations must contain a non-empty `query` or a `persistedQuery` extension.";
       code := "INTERNAL_SERVER_ERROR" |}.

(** The world after a call [store.get(hash)] that left the store in
    [st]. *)
Definition after_get {D S} (hash : JsPrimitive) (st : S) (w : World D S) : World D S :=
  {| now := now w; store_state := st;
     store_calls := (store_calls w ++ [Call_get hash])%list;
     context_symbol := context_symbol w;
     parsed_document := parsed_document w |}.

(** ** Fixtures for closed examples

    A parser and a digest to run the plugin on concrete requests. The
    digest is a checksum stretched to the size of the algorithm's digest;
    the documents are the texts themselves. *)

Definition checksum (text : string) : N :=
  fold_right (fun c acc => (N_of_ascii c + acc) mod 256)%N 0%N
             (list_ascii_of_string text).

Definition checksum_createHash (algo : HashAlgorithm) (text : string) : list byte :=
  repeat (default x00 (Byte.of_N (checksum text))) (digest_size algo).

Definition braces_parseFn (text : string) : string + string :=
  match text with
  | String "{" _ => inl text
  | _ => inr "Syntax Error: Unexpected Name"
  end.

(** A request whose [persistedQuery] extension has the given fields,
    under [req.body.extensions]. *)
Definition request_with_extension (fields : list (string * JsPrimitive))
    : DefaultContext :=
  {| request := None;
     req := Some {| body := Some {| extensions :=
       Some {[ PERSISTED_QUERY_EXTENSION_KEY := JsObject (list_to_map fields) ]} |} |} |}.

(** The world before the first request to a plugin. *)
Definition fresh_world {D} (p : Plugin D) : World D (St (store p)) :=
  {| now := 0; store_state := initial (store p); store_calls := [];
     context_symbol := None; parsed_document := None |}.

(** The plugin of the examples: the defaults of every option. *)
Definition default_plugin : Plugin string := useAutomaticPersistedQueries None.

Definition hello_query : string := "{ hello }".

Definition hello_hash : string := generateHash checksum_createHash hello_query sha256.

(** Requests to [default_plugin]. *)
Definition apq_request (fields : list (string * JsPrimitive)) (source : Source)
    : OnParseEventPayload string :=
  {| context := request_with_extension fields; parseFn := braces_parseFn;
     source := source |}.

(** Descriptor and text that agree. *)
Definition matching_request : OnParseEventPayload string :=
  apq_request [("version", JsNumber 1); ("sha256Hash", JsString hello_hash)]
              (Source_string hello_query).

(** A text sent under a hash that is not its own. *)
Definition forged_request : OnParseEventPayload string :=
  apq_request [("version", JsNumber 1); ("sha256Hash", JsString "deadbeef")]
              (Source_string hello_query).

(** A descriptor alone. *)
Definition hash_only_request : OnParseEventPayload string :=
  apq_request [("version", JsNumber 1); ("sha256Hash", JsString hello_hash)]
              (Source_object None).

(** No [version] on the wire. *)
Definition versionless_request : OnParseEventPayload string :=
  apq_request [("sha256Hash", JsString hello_hash)] (Source_string hello_query).

(** Version 2 on the wire. *)
Definition version2_request : OnParseEventPayload string :=
  apq_request [("version", JsNumber 2); ("sha256Hash", JsString hello_hash)]
              (Source_string hello_query).

(** Version 2 and no hash, with a text. *)
Definition version2_hashless_request : OnParseEventPayload string :=
  apq_request [("version", JsNumber 2)] (Source_string hello_query).

(** Version 1 and no hash, with a text. *)
Definition hashless_request : OnParseEventPayload string :=
  apq_request [("version", JsNumber 1)] (Source_string hello_query).

(** An extension with neither field. *)
Definition empty_extension : DefaultContext := request_with_extension [].

(** A request without extensions. *)
Definition plain_context : DefaultContext :=
  {| request := Some {| body := Some {| extensions := None |} |}; req := None |}.

Definition plain_request : OnParseEventPayload string :=
  {| context := plain_context; parseFn := braces_parseFn;
     source := Source_string hello_query |}.

(** A store made by the application with [createLRUStore(100, 60000)] and
    handed to the plugin, which leaves the other options to their
    defaults. *)
Definition shared_store : StoreObject string := createLRUStore (Some 100) (Some 60000%Z).

Definition shared_store_plugin : Plugin string :=
  useAutomaticPersistedQueries
    (Some {| opt_hashAlgorithm := None; opt_version := None;
             opt_resolvePersistedQuery := None; opt_store := Some shared_store;
             opt_writeToContext := None |}).

(** The world of a plugin once [store.put(hash, query)] was called on its
    empty store. *)
Definition world_holding (p : Plugin string) (hash : string)
    (query : StoredDocument string) : World string (St (store p)) :=
  {| now := 0;
     store_state :=
       put (methods (store p)) 0 (JsString hash) query (initial (store p));
     store_calls := []; context_symbol := None; parsed_document := None |}.

(** The options [{ version: undefined }]. *)
Definition version_undefined : UseAutomaticPersistedQueryOptions string :=
  {| opt_hashAlgorithm := None; opt_version := None;
     opt_resolvePersistedQuery := None; opt_store := None;
     opt_writeToContext := None |}.

Definition version_undefined_plugin : Plugin string :=
  useAutomaticPersistedQueries (Some version_undefined).

(** A store of two entries that live for 100 ms, and calls to it: [b] is
    the least recently used entry when [c] comes in. *)
Definition small_store : StoreObject string := createLRUStore (Some 2) (Some 100%Z).

Definition three_keys : list (StoreOp string) :=
  [Op_put 1 (JsString "a") (Text "{ a }");
   Op_put 2 (JsString "b") (Text "{ b }");
   Op_get 3 (JsString "a");
   Op_put 4 (JsString "c") (Text "{ c }")].

(** ** More fixtures *)

(** [0-9a-f] *)
Definition is_lower_hex (c : ascii) : bool :=
  match c with
  | "0" | "1" | "2" | "3" | "4" | "5" | "6" | "7" | "8" | "9"
  | "a" | "b" | "c" | "d" | "e" | "f" => true
  | _ => false
  end%char.

(** A plugin configured for md5 and a client that hashes with sha256. *)
Definition md5_plugin : Plugin string :=
  useAutomaticPersistedQueries
    (Some {| opt_hashAlgorithm := Some md5; opt_version := None;
             opt_resolvePersistedQuery := None; opt_store := None;
             opt_writeToContext := None |}).

(** The version sent as the text ["2"]. *)
Definition text_version_request : OnParseEventPayload string :=
  apq_request [("version", JsString "2"); ("sha256Hash", JsString hello_hash)]
              (Source_string hello_query).

(** ** Sequences of calls to a plugin

    What the pipeline does with a plugin over time: it calls [onParse], it
    calls a function that [onParse] returned, and time passes in
    between. *)

Inductive PluginCall (D : Type) :=
| Call_onParse (payload : OnParseEventPayload D)
| Call_after_parse (hook : AfterParseHook) (result : AfterParseResult D)
| Clock_reads (t : Z).
Arguments Call_onParse {D} payload.
Arguments Call_after_parse {D} hook result.
Arguments Clock_reads {D} t.

Definition at_time {D S} (t : Z) (w : World D S) : World D S :=
  {| now := t; store_state := store_state w; store_calls := store_calls w;
     context_symbol := context_symbol w; parsed_document := parsed_document w |}.

Definition apply_call {D} (createHash : HashAlgorithm -> string -> list byte)
    (p : Plugin D) (w : World D (St (store p))) (c : PluginCall D)
    : World D (St (store p)) :=
  match c with
  | Call_onParse payload => snd (onParse createHash p payload w)
  | Call_after_parse hook result => snd (run_after_parse p hook result w)
  | Clock_reads t => at_time t w
  end.

Definition run_calls {D} (createHash : HashAlgorithm -> string -> list byte)
    (p : Plugin D) (calls : list (PluginCall D)) (w : World D (St (store p)))
    : World D (St (store p)) :=
  fold_left (apply_call createHash p) calls w.

(** The first two requests of a client: the text under its hash, parsed
    and saved, then the hash alone, five minutes later. *)
Definition first_exchange : list (PluginCall string) :=
  [Call_onParse matching_request;
   Call_after_parse (after_parse (JsString hello_hash)) (result_document hello_query);
   Clock_reads 300000].

(** The hash of [hello_query] in upper case. *)
Definition upper_hello_hash : string :=
  "4C4C4C4C4C4C4C4C4C4C4C4C4C4C4C4C4C4C4C4C4C4C4C4C4C4C4C4C4C4C4C4C".

Definition upper_case_request : OnParseEventPayload string :=
  apq_request [("version", JsNumber 1); ("sha256Hash", JsString upper_hello_hash)]
              (Source_string hello_query).

(** [matching_request] with a parser that rejects everything. *)
Definition matching_request_no_parser : OnParseEventPayload string :=
  {| context := context matching_request;
     parseFn := fun _ => inr "no parser";
     source := source matching_request |}.

(** ** A request, from [onParse] to execution

    The plugin has one hook, [onParse]. The pipeline that calls it (the
    core of envelop, which is not part of these sources) runs it before
    parsing, and runs the function it returns right after parsing, with the
    result of the parse; the plugin is not called again when the document
    is executed. *)

(** The request-scoped part of the world starts empty. *)
Definition new_request {D S} (w : World D S) : World D S :=
  {| now := now w; store_state := store_state w; store_calls := store_calls w;
     context_symbol := None; parsed_document := None |}.

(** [onParse], then the parse (skipped when [setParsedDocument] was
    called; a request for which [onParse] returns normally without setting
    a document has a text), then the function that [onParse] returned,
    called with the document or with the error of the parser. *)
Definition parse_phase {D} (createHash : HashAlgorithm -> string -> list byte)
    (p : Plugin D) (payload : OnParseEventPayload D) (w : World D (St (store p)))
    : Completion D * World D (St (store p)) :=
  match onParse createHash p payload (new_request w) with
  | (Throw e, w1) => (Throw e, w1)
  | (Normal hook, w1) =>
      let parsed :=
        match parsed_document w1 with
        | Some document => Normal document
        | None =>
            call_parseFn payload (default "" (query_of_source (source payload)))
        end in
      let result :=
        match parsed with
        | Normal document => result_document document
        | Throw e => result_error e
        end in
      (parsed,
       match hook with
       | Some hook => snd (run_after_parse p hook result w1)
       | None => w1
       end)
  end.

(** The whole request: the parse phase, then the execution of the
    document by the executor of the pipeline, which tells whether it
    completed without error. [None]: nothing was executed. *)
Definition handle_request {D} (createHash : HashAlgorithm -> string -> list byte)
    (p : Plugin D) (execute : D -> bool) (payload : OnParseEventPayload D)
    (w : World D (St (store p))) : option bool * World D (St (store p)) :=
  let (parsed, w') := parse_phase createHash p payload w in
  (match parsed with
   | Normal document => Some (execute document)
   | Throw _ => None
   end, w').

(** An executor for which every document fails. *)
Definition failing_execute (document : string) : bool := false.

(** ** Accesses to a store *)

Definition op_hash {D} (op : StoreOp D) : JsPrimitive :=
  match op with
  | Op_get _ hash => hash
  | Op_put _ hash _ => hash
  end.

Definition op_time {D} (op : StoreOp D) : Z :=
  match op with
  | Op_get now _ => now
  | Op_put now _ _ => now
  end.

(** The time of the last call of a sequence, [get] or [put], that was made
    with the hash; [None] when there is none. *)
Definition last_access {D} (ops : list (StoreOp D)) (hash : JsPrimitive) : option Z :=
  fold_left (fun t op => if bool_decide (op_hash op = hash) then Some (op_time op) else t)
            ops None.

(** * Properties *)

(** ** Hashes *)

Lemma hex_length bytes : String.length (hex bytes) = (2 * length bytes)%nat.
Proof. induction bytes as [|b rest IH]; simpl; [reflexivity | rewrite IH; lia]. Qed.

Lemma hex_nonempty bytes : bytes <> [] -> hex bytes <> "".
Proof. destruct bytes; [congruence | discriminate]. Qed.

Lemma truthy_string s : truthy (JsString s) = true <-> s <> "".
Proof.
  simpl. destruct (String.eqb_spec s ""); simpl; split; congruence.
Qed.

Lemma falsy_not_string v s : truthy v = false -> s <> "" -> v <> JsString s.
Proof.
  intros Hv Hs ->. apply truthy_string in Hs. congruence.
Qed.

Lemma strict_eq_true a b : strict_eq a b = true <-> a = b.
Proof. unfold strict_eq. apply bool_decide_eq_true. Qed.

Lemma strict_eq_false a b : strict_eq a b = false <-> a <> b.
Proof. unfold strict_eq. apply bool_decide_eq_false. Qed.

Lemma version_mismatch_spec version expected :
  version_mismatch version expected = true <->
  exists v, version = JsNumber v /\ v <> expected.
Proof.
  unfold version_mismatch. split.
  - intros H. apply andb_prop in H as [Hn Hne].
    destruct version; try discriminate. exists n. split; [reflexivity|].
    apply negb_true_iff, strict_eq_false in Hne. congruence.
  - intros (v & -> & Hv). simpl. apply negb_true_iff, strict_eq_false. congruence.
Qed.

(** Unfolds the monad of [onParse] down to the tests of its body. *)
Ltac negotiate :=
  unfold onParse, bind, lift, ret, throw_error, throw_pq; simpl.

Section Negotiation.

Context {DocumentNode : Type}.
Variable createHash : HashAlgorithm -> string -> list byte.

Local Abbreviation onParse := (@onParse DocumentNode createHash).
Local Abbreviation generateHash := (generateHash createHash).

(** A digest has the size of its algorithm, so its hexadecimal form is
    not the empty text. *)
Lemma generateHash_nonempty query algo :
  (forall a t, length (createHash a t) = digest_size a) ->
  generateHash query algo <> "".
Proof.
  intros Hsize. apply hex_nonempty. intros Hnil.
  specialize (Hsize algo query). rewrite Hnil in Hsize. destruct algo; discriminate.
Qed.

(** With a descriptor that passes the version check and with a text, the
    outcome is decided by one comparison, and the world stays as it was. *)
Lemma onParse_with_text (p : Plugin DocumentNode)
    (payload : OnParseEventPayload DocumentNode) (pq : PersistedQuery)
    (query : string) (w : World DocumentNode (St (store p))) :
  getPersistedQuery p (context payload) = Normal (Some pq) ->
  version_mismatch (version pq) (expectedVersion p) = false ->
  query_of_source (source payload) = Some query ->
  onParse p payload w =
    if strict_eq (hash pq) (JsString (generateHash query (hashAlgorithm p)))
    then (Normal (Some (after_parse (hash pq))), w)
    else (Throw (HASH_MISMATCH_error p), w).
Proof.
  intros Hpq Hver Hquery. negotiate. rewrite Hpq, Hver, Hquery.
  destruct (strict_eq _ _); reflexivity.
Qed.

(** A descriptor whose version is a number other than the expected one
    stops the negotiation at once. *)
Lemma onParse_version_mismatch (p : Plugin DocumentNode)
    (payload : OnParseEventPayload DocumentNode) (pq : PersistedQuery)
    (w : World DocumentNode (St (store p))) :
  getPersistedQuery p (context payload) = Normal (Some pq) ->
  version_mismatch (version pq) (expectedVersion p) = true ->
  onParse p payload w = (Throw INVALID_VERSION_error, w).
Proof.
  intros Hpq Hver. negotiate. rewrite Hpq, Hver. reflexivity.
Qed.

(** C1. A request with a descriptor of acceptable version and with query
    text: when the descriptor's hash is not the hash recomputed from the
    text, the negotiation throws the hash-mismatch error, whatever the
    store and its state, and the store is not consulted; when it is, the
    negotiation completes normally, hands no other document to the
    pipeline (the text supplied is what gets parsed) and returns the
    function that will save the document under that hash. *)
Theorem C1_verify_supplied_text (p : Plugin DocumentNode)
    (payload : OnParseEventPayload DocumentNode) (pq : PersistedQuery)
    (query : string) (w : World DocumentNode (St (store p))) :
  getPersistedQuery p (context payload) = Normal (Some pq) ->
  version_mismatch (version pq) (expectedVersion p) = false ->
  query_of_source (source payload) = Some query ->
  (hash pq <> JsString (generateHash query (hashAlgorithm p)) ->
   onParse p payload w = (Throw (HASH_MISMATCH_error p), w))
  /\
  (hash pq = JsString (generateHash query (hashAlgorithm p)) ->
   onParse p payload w =
     (Normal (Some (after_parse (JsString (generateHash query (hashAlgorithm p))))), w)).
Proof.
  intros Hpq Hver Hquery.
  rewrite (onParse_with_text p payload pq query w Hpq Hver Hquery).
  split; intros Hhash.
  - apply strict_eq_false in Hhash. rewrite Hhash. reflexivity.
  - rewrite <- Hhash. unfold strict_eq.
    rewrite bool_decide_eq_true_2 by reflexivity. reflexivity.
Qed.

(** C10, as amended. A request with query text and a descriptor of
    acceptable version whose hash is falsy (absent, empty) fails with the
    hash-mismatch error, not with HASH_MISSING: a digest is never empty,
    so its hexadecimal form differs from every falsy value. *)
Theorem C10_falsy_hash_with_text (p : Plugin DocumentNode)
    (payload : OnParseEventPayload DocumentNode) (pq : PersistedQuery)
    (query : string) (w : World DocumentNode (St (store p))) :
  (forall a t, length (createHash a t) = digest_size a) ->
  getPersistedQuery p (context payload) = Normal (Some pq) ->
  version_mismatch (version pq) (expectedVersion p) = false ->
  query_of_source (source payload) = Some query ->
  truthy (hash pq) = false ->
  onParse p payload w = (Throw (HASH_MISMATCH_error p), w) /\
  thrown_code (fst (onParse p payload w)) = Some codes.HASH_MISMATCH /\
  thrown_code (fst (onParse p payload w)) <> Some codes.HASH_MISSING.
Proof.
  intros Hsize Hpq Hver Hquery Hfalsy.
  rewrite (onParse_with_text p payload pq query w Hpq Hver Hquery).
  assert (Hne : hash pq <> JsString (generateHash query (hashAlgorithm p))).
  { apply falsy_not_string; [exact Hfalsy | apply generateHash_nonempty, Hsize]. }
  apply strict_eq_false in Hne. rewrite Hne. simpl.
  split; [reflexivity | split; [reflexivity | discriminate]].
Qed.

(** The codes of the errors that [onParse] throws past the version
    check. *)
Lemma onParse_past_version_check (p : Plugin DocumentNode)
    (payload : OnParseEventPayload DocumentNode) (pq : PersistedQuery)
    (w : World DocumentNode (St (store p))) :
  getPersistedQuery p (context payload) = Normal (Some pq) ->
  version_mismatch (version pq) (expectedVersion p) = false ->
  thrown_code (fst (onParse p payload w)) <> Some codes.INVALID_VERSION.
Proof.
  intros Hpq Hver. negotiate. rewrite Hpq, Hver.
  unfold store_get, extendContext, setParsedDocument, call_parseFn.
  repeat (case_match; simpl in *; simplify_eq; try discriminate).
Qed.

(** C2, as amended. Given a descriptor, the negotiation fails with
    INVALID_VERSION exactly when the descriptor's version is a number
    other than the expected one: a version that is not a number passes the
    check. The default extractor hands the version of the wire over as it
    is, but for a version that is absent ([undefined]) or [null], which it
    reads as the number 0. So, with the default extractor, a request
    without version fails with INVALID_VERSION unless the expected version
    is 0, and a version that is not a number (a text, a boolean) reaches
    [onParse] unchanged and passes the check. *)
Theorem C2_version_check (p : Plugin DocumentNode)
    (payload : OnParseEventPayload DocumentNode) (pq : PersistedQuery)
    (w : World DocumentNode (St (store p))) :
  getPersistedQuery p (context payload) = Normal (Some pq) ->
  (thrown_code (fst (onParse p payload w)) = Some codes.INVALID_VERSION <->
   exists v, version pq = JsNumber v /\ v <> expectedVersion p)
  /\
  (forall algorithm pq',
     getPersistedQueryFromContext (context payload) algorithm = Normal (Some pq') ->
     get_property (persistedQuery_extension (context payload)) "version" = JsUndefined ->
     version pq' = JsNumber 0)
  /\
  (forall algorithm pq',
     getPersistedQueryFromContext (context payload) algorithm = Normal (Some pq') ->
     version pq' =
       nullish_or (get_property (persistedQuery_extension (context payload)) "version")
                  (JsNumber 0))
  /\
  (getPersistedQueryFromContext (context payload) (hashAlgorithm p)
     = Normal (Some pq) ->
   let wire := get_property (persistedQuery_extension (context payload)) "version" in
   (wire = JsUndefined \/ wire = JsNull ->
    version pq = JsNumber 0 /\
    (thrown_code (fst (onParse p payload w)) = Some codes.INVALID_VERSION <->
     expectedVersion p <> 0%Z))
   /\
   (typeof_number wire = false -> wire <> JsUndefined -> wire <> JsNull ->
    version pq = wire /\
    thrown_code (fst (onParse p payload w)) <> Some codes.INVALID_VERSION)).
Proof.
  intros Hpq.
  assert (Hcheck :
    thrown_code (fst (onParse p payload w)) = Some codes.INVALID_VERSION <->
    exists v, version pq = JsNumber v /\ v <> expectedVersion p).
  { rewrite <- version_mismatch_spec.
    destruct (version_mismatch (version pq) (expectedVersion p)) eqn:Hver.
    + rewrite (onParse_version_mismatch p payload pq w Hpq Hver). simpl.
      split; reflexivity.
    + split; [|discriminate]. intros Hcode.
      destruct (onParse_past_version_check p payload pq w Hpq Hver Hcode). }
  assert (Hwire : forall algorithm pq',
     getPersistedQueryFromContext (context payload) algorithm = Normal (Some pq') ->
     version pq' =
       nullish_or (get_property (persistedQuery_extension (context payload)) "version")
                  (JsNumber 0)).
  { intros algorithm pq'. unfold getPersistedQueryFromContext.
    destruct (truthy_value _); [|discriminate].
    destruct (_ && _); [discriminate|]. intros [= <-]. reflexivity. }
  split; [exact Hcheck|]. split; [|split; [exact Hwire|]].
  - intros algorithm pq' Hdefault Habsent.
    rewrite (Hwire algorithm pq' Hdefault), Habsent. reflexivity.
  - intros Hdefault wire. specialize (Hwire _ _ Hdefault). fold wire in Hwire.
    split.
    + intros Hnullish.
      assert (Hzero : version pq = JsNumber 0)
        by (rewrite Hwire; destruct Hnullish as [-> | ->]; reflexivity).
      split; [exact Hzero|]. rewrite Hcheck, Hzero. split.
      * intros (v & [= <-] & Hv) Heq. apply Hv. symmetry. exact Heq.
      * intros Hne. exists 0%Z. split; [reflexivity|]. intros Heq. apply Hne.
        symmetry. exact Heq.
    + intros Hnot Hundef Hnull.
      assert (Hsame : version pq = wire)
        by (rewrite Hwire; destruct wire; simpl; congruence).
      split; [exact Hsame|]. rewrite Hcheck, Hsame.
      intros (v & Hv & _). rewrite Hv in Hnot. discriminate Hnot.
Qed.

(** C3, as amended. Configured with [version: undefined], the plugin
    expects the default protocol version 1, and enforcement stays on: a
    descriptor whose version is a number other than 1 fails with
    INVALID_VERSION. *)
Theorem C3_undefined_version_is_default
    (options : UseAutomaticPersistedQueryOptions DocumentNode)
    (payload : OnParseEventPayload DocumentNode) (pq : PersistedQuery) (v : Z)
    (w : World DocumentNode (St (store (useAutomaticPersistedQueries (Some options))))) :
  opt_version options = None ->
  getPersistedQuery (useAutomaticPersistedQueries (Some options)) (context payload)
    = Normal (Some pq) ->
  version pq = JsNumber v ->
  v <> 1%Z ->
  expectedVersion (useAutomaticPersistedQueries (Some options)) = DEFAULT_PROTOCOL_VERSION /\
  onParse (useAutomaticPersistedQueries (Some options)) payload w
    = (Throw INVALID_VERSION_error, w).
Proof.
  intros Hopt Hpq Hversion Hv.
  assert (Hexp : expectedVersion (useAutomaticPersistedQueries (Some options))
                 = DEFAULT_PROTOCOL_VERSION).
  { simpl. rewrite Hopt. reflexivity. }
  split; [exact Hexp|].
  apply (onParse_version_mismatch _ payload pq w Hpq).
  apply version_mismatch_spec. exists v. split; [exact Hversion|].
  rewrite Hexp. exact Hv.
Qed.

Lemma puts_of_get (calls : list (StoreCall DocumentNode)) hash :
  puts_of (calls ++ [Call_get hash]) = puts_of calls.
Proof. unfold puts_of. rewrite omap_app. simpl. apply app_nil_r. Qed.

Lemma puts_of_put (calls : list (StoreCall DocumentNode)) hash query :
  puts_of (calls ++ [Call_put hash query]) = (puts_of calls ++ [(hash, query)])%list.
Proof. unfold puts_of. rewrite omap_app. reflexivity. Qed.

(** When the extractor throws, so does [onParse]. *)
Lemma onParse_extractor_throws (p : Plugin DocumentNode)
    (payload : OnParseEventPayload DocumentNode) (e : Exception)
    (w : World DocumentNode (St (store p))) :
  getPersistedQuery p (context payload) = Throw e ->
  onParse p payload w = (Throw e, w).
Proof. intros Hpq. negotiate. rewrite Hpq. reflexivity. Qed.

(** Without a descriptor, a non-empty text is hashed for the later
    [put]; anything else is an error. *)
Lemma onParse_no_descriptor (p : Plugin DocumentNode)
    (payload : OnParseEventPayload DocumentNode)
    (w : World DocumentNode (St (store p))) :
  getPersistedQuery p (context payload) = Normal None ->
  onParse p payload w =
    match query_of_source (source payload) with
    | Some query =>
        if truthy (JsString query)
        then (Normal (Some (after_parse
                (JsString (generateHash query (hashAlgorithm p))))), w)
        else (Throw INTERNAL_error, w)
    | None => (Throw INTERNAL_error, w)
    end.
Proof.
  intros Hpq. negotiate. rewrite Hpq.
  destruct (query_of_source (source payload)) as [query|]; [|reflexivity].
  destruct (negb (query =? "")); reflexivity.
Qed.

(** With a descriptor that passes the version check and without text, the
    document comes from the store. *)
Lemma onParse_lookup (p : Plugin DocumentNode)
    (payload : OnParseEventPayload DocumentNode) (pq : PersistedQuery)
    (w : World DocumentNode (St (store p))) :
  getPersistedQuery p (context payload) = Normal (Some pq) ->
  version_mismatch (version pq) (expectedVersion p) = false ->
  query_of_source (source payload) = None ->
  onParse p payload w =
    if truthy (hash pq) then
      let (cachedQuery, st) :=
        get (methods (store p)) (now w) (hash pq) (store_state w) in
      let w1 := after_get (hash pq) st w in
      if document_truthy cachedQuery then
        match
          match cachedQuery with
          | Some (Text text) => call_parseFn payload text
          | Some (Document document) => Normal document
          | None => Throw NOT_FOUND_error
          end
        with
        | Normal document =>
            (Normal None,
             {| now := now w1; store_state := st; store_calls := store_calls w1;
                context_symbol :=
                  if writeToContext p then Some (source payload)
                  else context_symbol w;
                parsed_document := Some document |})
        | Throw e => (Throw e, w1)
        end
      else (Throw NOT_FOUND_error, w1)
    else (Throw HASH_MISSING_error, w).
Proof.
  intros Hpq Hver Hquery. negotiate. rewrite Hpq, Hver, Hquery.
  destruct (truthy (hash pq)); [|reflexivity]. simpl.
  unfold store_get.
  destruct (get (methods (store p)) (now w) (hash pq) (store_state w))
    as [cachedQuery st].
  destruct (document_truthy cachedQuery) eqn:Htruthy; [|reflexivity]. simpl.
  destruct cachedQuery as [[text|document]|]; simpl.
  - destruct (call_parseFn payload text); [|reflexivity].
    destruct (writeToContext p); reflexivity.
  - destruct (writeToContext p); reflexivity.
  - reflexivity.
Qed.

(** What [onParse] and the function it returns do to the store, path by
    path. *)
Lemma onParse_store_writes (p : Plugin DocumentNode)
    (payload : OnParseEventPayload DocumentNode)
    (w : World DocumentNode (St (store p))) :
  match onParse p payload w with
  | (Throw _, w') =>
      puts_of (store_calls w') = puts_of (store_calls w) /\
      (store_state w' = store_state w \/
       exists hash, store_state w' =
                    snd (get (methods (store p)) (now w) hash (store_state w))) /\
      (w' = w \/
       query_of_source (source payload) = None /\
       exists pq,
         getPersistedQuery p (context payload) = Normal (Some pq) /\
         truthy (hash pq) = true /\
         w' = after_get (hash pq)
                (snd (get (methods (store p)) (now w) (hash pq) (store_state w))) w)
  | (Normal None, w') =>
      puts_of (store_calls w') = puts_of (store_calls w)
  | (Normal (Some hook), w') =>
      w' = w /\
      (exists query,
         query_of_source (source payload) = Some query /\
         hook = after_parse (JsString (generateHash query (hashAlgorithm p)))) /\
      forall (result : AfterParseResult DocumentNode)
             (w1 : World DocumentNode (St (store p))),
        match result with
        | result_document document =>
            let 'after_parse queryHash := hook in
            let w2 := snd (run_after_parse p hook result w1) in
            if truthy queryHash
            then puts_of (store_calls w2)
                   = (puts_of (store_calls w1) ++ [(queryHash, Document document)])%list
                 /\ store_state w2
                   = put (methods (store p)) (now w1) queryHash (Document document)
                         (store_state w1)
            else w2 = w1
        | _ => run_after_parse p hook result w1 = (Normal tt, w1)
        end
  end.
Proof.
  assert (Hhook : forall queryHash (result : AfterParseResult DocumentNode)
                         (w1 : World DocumentNode (St (store p))),
    match result with
    | result_document document =>
        let w2 := snd (run_after_parse p (after_parse queryHash) result w1) in
        if truthy queryHash
        then puts_of (store_calls w2)
               = (puts_of (store_calls w1) ++ [(queryHash, Document document)])%list
             /\ store_state w2
               = put (methods (store p)) (now w1) queryHash (Document document)
                     (store_state w1)
        else w2 = w1
    | _ => run_after_parse p (after_parse queryHash) result w1 = (Normal tt, w1)
    end).
  { intros queryHash [| e | document] w1; simpl; try reflexivity.
    destruct (truthy queryHash); simpl; [|reflexivity].
    split; [apply puts_of_put | reflexivity]. }
  destruct (getPersistedQuery p (context payload)) as [[pq|]|e] eqn:Hpq.
  - destruct (version_mismatch (version pq) (expectedVersion p)) eqn:Hver.
    { rewrite (onParse_version_mismatch p payload pq w Hpq Hver). auto. }
    destruct (query_of_source (source payload)) as [query|] eqn:Hquery.
    + rewrite (onParse_with_text p payload pq query w Hpq Hver Hquery).
      destruct (strict_eq _ _) eqn:Heq; [|auto].
      apply strict_eq_true in Heq.
      split; [reflexivity|]. split; [|apply Hhook].
      exists query. rewrite Heq. auto.
    + rewrite (onParse_lookup p payload pq w Hpq Hver Hquery).
      destruct (truthy (hash pq)) eqn:Htruthy; [|auto].
      destruct (get (methods (store p)) (now w) (hash pq) (store_state w))
        as [cachedQuery st] eqn:Hget.
      assert (Hst : st = snd (get (methods (store p)) (now w) (hash pq) (store_state w)))
        by (rewrite Hget; reflexivity).
      assert (Hlookup :
        after_get (hash pq) st w = w \/
        None = None (A := string) /\
        exists pq0,
          Normal (Some pq) = Normal (Some pq0) /\
          truthy (hash pq0) = true /\
          after_get (hash pq) st w
            = after_get (hash pq0)
                (snd (get (methods (store p)) (now w) (hash pq0) (store_state w))) w).
      { right. split; [reflexivity|]. exists pq. rewrite Hget. auto. }
      simpl. destruct (document_truthy cachedQuery).
      * destruct (match cachedQuery with
                  | Some (Text text) => call_parseFn payload text
                  | Some (Document document) => Normal document
                  | None => Throw NOT_FOUND_error
                  end); simpl.
        -- apply puts_of_get.
        -- split; [apply puts_of_get|].
           split; [right; exists (hash pq); exact Hst | exact Hlookup].
      * simpl. split; [apply puts_of_get|].
        split; [right; exists (hash pq); exact Hst | exact Hlookup].
  - rewrite (onParse_no_descriptor p payload w Hpq).
    destruct (query_of_source (source payload)) as [query|]; [|auto].
    destruct (truthy (JsString query)); [|auto].
    split; [reflexivity|]. split; [|apply Hhook]. exists query. auto.
  - rewrite (onParse_extractor_throws p payload e w Hpq). auto.
Qed.

(** C4, as amended. A [put] is made only by the function that [onParse]
    returns, which runs after the parse, and only when it is called with a
    document. Every failure of [onParse] leaves the list of [put] calls as
    it was; it leaves the whole world as it was, but on the lookup path
    (NOT_FOUND, or the syntax error of a stored text), where the one [get]
    has been made and the state of the store is what that [get] left. A
    resolution from the store returns no function and makes no [put]. A
    resolution from a supplied text touches nothing and returns the
    function closed over the hash of that text; called with a falsy result
    or with an error it leaves the world as it is, and called with a
    document it makes the one call [put(hash, document)]. Over a whole
    request, a [put] is made only when the parse phase ends with a
    document, and what the store becomes does not depend on how the
    execution of that document ends. *)
Theorem C4_put_only_after_success (p : Plugin DocumentNode)
    (payload : OnParseEventPayload DocumentNode)
    (w : World DocumentNode (St (store p))) :
  match onParse p payload w with
  | (Throw _, w') =>
      puts_of (store_calls w') = puts_of (store_calls w) /\
      (store_state w' = store_state w \/
       exists hash, store_state w' =
                    snd (get (methods (store p)) (now w) hash (store_state w))) /\
      (w' = w \/
       query_of_source (source payload) = None /\
       exists pq,
         getPersistedQuery p (context payload) = Normal (Some pq) /\
         truthy (hash pq) = true /\
         w' = after_get (hash pq)
                (snd (get (methods (store p)) (now w) (hash pq) (store_state w))) w)
  | (Normal None, w') =>
      puts_of (store_calls w') = puts_of (store_calls w)
  | (Normal (Some hook), w') =>
      w' = w /\
      (exists query,
         query_of_source (source payload) = Some query /\
         hook = after_parse (JsString (generateHash query (hashAlgorithm p)))) /\
      forall (result : AfterParseResult DocumentNode)
             (w1 : World DocumentNode (St (store p))),
        match result with
        | result_document document =>
            let 'after_parse queryHash := hook in
            let w2 := snd (run_after_parse p hook result w1) in
            if truthy queryHash
            then puts_of (store_calls w2)
                   = (puts_of (store_calls w1) ++ [(queryHash, Document document)])%list
                 /\ store_state w2
                   = put (methods (store p)) (now w1) queryHash (Document document)
                         (store_state w1)
            else w2 = w1
        | _ => run_after_parse p hook result w1 = (Normal tt, w1)
        end
  end
  /\
  match parse_phase createHash p payload w with
  | (Normal document, w') =>
      puts_of (store_calls w') = puts_of (store_calls w) \/
      exists query,
        query_of_source (source payload) = Some query /\
        puts_of (store_calls w')
          = (puts_of (store_calls w) ++
             [(JsString (generateHash query (hashAlgorithm p)), Document document)])%list
  | (Throw _, w') => puts_of (store_calls w') = puts_of (store_calls w)
  end
  /\
  forall execute execute' : DocumentNode -> bool,
    snd (handle_request createHash p execute payload w)
      = snd (handle_request createHash p execute' payload w).
Proof.
  split; [apply onParse_store_writes|]. split.
  - pose proof (onParse_store_writes p payload (new_request w)) as Hwrites.
    unfold parse_phase.
    destruct (onParse p payload (new_request w)) as [[[hook|]|e] w1].
    + destruct Hwrites as (-> & (query & Hquery & ->) & Hhook).
      simpl. rewrite Hquery. simpl.
      destruct (call_parseFn payload query) as [document|e].
      * specialize (Hhook (result_document document) (new_request w)).
        simpl in Hhook.
        destruct (negb (generateHash query (hashAlgorithm p) =? "")).
        -- right. exists query. split; [reflexivity|]. apply Hhook.
        -- left. simpl. reflexivity.
      * reflexivity.
    + simpl in Hwrites.
      destruct (match parsed_document w1 with
                | Some document => Normal document
                | None => call_parseFn payload
                            (default "" (query_of_source (source payload)))
                end); [left|]; exact Hwrites.
    + apply Hwrites.
  - intros execute execute'. unfold handle_request.
    destruct (parse_phase createHash p payload w). reflexivity.
Qed.

(** C5, as amended. A request with a descriptor of acceptable version and
    without query text: a falsy hash fails with HASH_MISSING and the store
    is not consulted; otherwise the store is asked once, and a miss, or an
    empty text, fails with NOT_FOUND; a stored document resolves the
    request as it is, and a stored text that is not empty resolves it
    through [parseFn], whose syntax error, when it throws one, is the
    outcome. *)
Theorem C5_lookup_by_hash (p : Plugin DocumentNode)
    (payload : OnParseEventPayload DocumentNode) (pq : PersistedQuery)
    (w : World DocumentNode (St (store p))) :
  getPersistedQuery p (context payload) = Normal (Some pq) ->
  version_mismatch (version pq) (expectedVersion p) = false ->
  query_of_source (source payload) = None ->
  (truthy (hash pq) = false ->
   onParse p payload w = (Throw HASH_MISSING_error, w))
  /\
  (truthy (hash pq) = true ->
   forall cachedQuery st,
     get (methods (store p)) (now w) (hash pq) (store_state w) = (cachedQuery, st) ->
     store_state (snd (onParse p payload w)) = st /\
     store_calls (snd (onParse p payload w))
       = (store_calls w ++ [Call_get (hash pq)])%list /\
     match cachedQuery with
     | None => fst (onParse p payload w) = Throw NOT_FOUND_error
     | Some (Text text) =>
         if String.eqb text ""
         then fst (onParse p payload w) = Throw NOT_FOUND_error
         else
           match parseFn payload text with
           | inl document =>
               fst (onParse p payload w) = Normal None /\
               parsed_document (snd (onParse p payload w)) = Some document
           | inr msg => fst (onParse p payload w) = Throw (Parser_error msg)
           end
     | Some (Document document) =>
         fst (onParse p payload w) = Normal None /\
         parsed_document (snd (onParse p payload w)) = Some document
     end).
Proof.
  intros Hpq Hver Hquery.
  rewrite (onParse_lookup p payload pq w Hpq Hver Hquery).
  split; intros Hhash; rewrite Hhash; [reflexivity|].
  intros cachedQuery st Hget. rewrite Hget.
  destruct cachedQuery as [[text|document]|]; simpl.
  - destruct (String.eqb text ""); simpl; [auto|].
    unfold call_parseFn. destruct (parseFn payload text); simpl; auto.
  - auto.
  - auto.
Qed.

(** C7. The default extractor: when the request carries no
    [persistedQuery] extension it returns no descriptor and throws
    nothing, and a plugin that uses it then treats a request with a text as
    a plain submission, hashing the text for the later [put]; when the
    extension is an object whose [version] is not a number and that has no
    [<algorithm>Hash] field for the configured algorithm, it throws the
    NOT_FOUND error. *)
Theorem C7_default_extractor (ctx : DefaultContext) (algorithm : HashAlgorithm) :
  (persistedQuery_extension ctx = JsPrim JsUndefined ->
   getPersistedQueryFromContext ctx algorithm = Normal None /\
   forall (options : UseAutomaticPersistedQueryOptions DocumentNode)
          (payload : OnParseEventPayload DocumentNode) (query : string)
          (w : World DocumentNode (St (store (useAutomaticPersistedQueries (Some options))))),
     opt_resolvePersistedQuery options = None ->
     context payload = ctx ->
     query_of_source (source payload) = Some query ->
     query <> "" ->
     onParse (useAutomaticPersistedQueries (Some options)) payload w =
       (Normal (Some (after_parse (JsString
          (generateHash query
             (hashAlgorithm (useAutomaticPersistedQueries (Some options))))))), w))
  /\
  (forall fields,
     persistedQuery_extension ctx = JsObject fields ->
     typeof_number (get_property (JsObject fields) "version") = false ->
     fields !! (algorithm_name algorithm +:+ "Hash") = None ->
     getPersistedQueryFromContext ctx algorithm = Throw NOT_FOUND_error).
Proof.
  split.
  - intros Habsent.
    assert (Hnone : forall a, getPersistedQueryFromContext ctx a = Normal None).
    { intros a. unfold getPersistedQueryFromContext. rewrite Habsent. reflexivity. }
    split; [apply Hnone|].
    intros options payload query w Hresolve Hctx Hquery Hne.
    rewrite onParse_no_descriptor.
    + rewrite Hquery. apply truthy_string in Hne. rewrite Hne. reflexivity.
    + simpl. rewrite Hresolve, Hctx. apply Hnone.
  - intros fields Hext Hversion Hhash.
    unfold getPersistedQueryFromContext. rewrite Hext.
    simpl in *. rewrite Hversion, Hhash. reflexivity.
Qed.

(** C9, as amended. The request context is extended under the plugin's
    key exactly when [writeToContext] holds and the negotiation resolves
    from the store (a descriptor, no query text, a hit); a negotiation that
    resolves from a supplied text, or that fails, leaves the context as it
    was. *)
Theorem C9_context_written_on_store_hit (p : Plugin DocumentNode)
    (payload : OnParseEventPayload DocumentNode)
    (w : World DocumentNode (St (store p))) :
  match onParse p payload w with
  | (Normal None, w') =>
      query_of_source (source payload) = None /\
      (exists pq, getPersistedQuery p (context payload) = Normal (Some pq)) /\
      if writeToContext p
      then is_Some (context_symbol w')
      else context_symbol w' = context_symbol w
  | (Normal (Some _), w') =>
      is_Some (query_of_source (source payload)) /\
      context_symbol w' = context_symbol w
  | (Throw _, w') => context_symbol w' = context_symbol w
  end.
Proof.
  destruct (getPersistedQuery p (context payload)) as [[pq|]|e] eqn:Hpq.
  - destruct (version_mismatch (version pq) (expectedVersion p)) eqn:Hver.
    { rewrite (onParse_version_mismatch p payload pq w Hpq Hver). reflexivity. }
    destruct (query_of_source (source payload)) as [query|] eqn:Hquery.
    + rewrite (onParse_with_text p payload pq query w Hpq Hver Hquery).
      destruct (strict_eq _ _); [split; [eexists|]|]; reflexivity.
    + rewrite (onParse_lookup p payload pq w Hpq Hver Hquery).
      destruct (truthy (hash pq)); [|reflexivity].
      destruct (get (methods (store p)) (now w) (hash pq) (store_state w))
        as [cachedQuery st].
      simpl. destruct (document_truthy cachedQuery); [|reflexivity].
      destruct (match cachedQuery with
                | Some (Text text) => call_parseFn payload text
                | Some (Document document) => Normal document
                | None => Throw NOT_FOUND_error
                end); simpl; [|reflexivity].
      split; [reflexivity|]. split; [eexists; reflexivity|].
      destruct (writeToContext p); [eexists|]; reflexivity.
  - rewrite (onParse_no_descriptor p payload w Hpq).
    destruct (query_of_source (source payload)) as [query|]; [|reflexivity].
    destruct (truthy (JsString query)); [split; [eexists|]|]; reflexivity.
  - rewrite (onParse_extractor_throws p payload e w Hpq). reflexivity.
Qed.

End Negotiation.

(** ** The bounded cache *)

Section LRU_properties.

Context {K V : Type} `{EqDecision K}.
Implicit Types (c : LRU K V) (e v : CacheEntry K V) (l : list (CacheEntry K V)).

Lemma evict_split l v rest :
  evict l = Some (v, rest) ->
  exists l1 l2, l = (l1 ++ v :: l2)%list /\ rest = (l1 ++ l2)%list.
Proof.
  revert v rest. induction l as [|e l IH]; intros v rest; simpl; [discriminate|].
  destruct (evict l) as [[v' rest']|] eqn:Hev.
  - destruct (lastAccessedAt v' <? lastAccessedAt e)%Z; intros [= <- <-].
    + destruct (IH v' rest' eq_refl) as (l1 & l2 & -> & ->).
      exists (e :: l1), l2. split; reflexivity.
    + exists [], l. split; reflexivity.
  - intros [= <- <-]. exists [], l. split; reflexivity.
Qed.

Lemma evict_least l v rest :
  evict l = Some (v, rest) ->
  forall e, In e l -> (lastAccessedAt v <= lastAccessedAt e)%Z.
Proof.
  revert v rest. induction l as [|e0 l IH]; intros v rest; simpl; [discriminate|].
  destruct (evict l) as [[v' rest']|] eqn:Hev.
  - specialize (IH v' rest' eq_refl).
    destruct (lastAccessedAt v' <? lastAccessedAt e0)%Z eqn:Hlt;
      intros [= <- <-] e [<-|Hin].
    + apply Z.ltb_lt in Hlt. lia.
    + apply IH, Hin.
    + lia.
    + apply Z.ltb_ge in Hlt. specialize (IH e Hin). lia.
  - destruct l; [|simpl in Hev; destruct (evict l) as [[? ?]|];
                  [destruct (_ <? _)%Z|]; discriminate].
    intros [= <- <-] e [<-|[]]. lia.
Qed.

Lemma evict_is_Some l : l <> [] -> is_Some (evict l).
Proof.
  destruct l as [|e l]; [congruence|]. intros _. simpl.
  destruct (evict l) as [[v rest]|]; [destruct (_ <? _)%Z|]; eexists; reflexivity.
Qed.

Lemma remove_key_length k l : length (remove_key k l) <= length l.
Proof. unfold remove_key. apply List.filter_length_le. Qed.

Lemma touch_length now k l : length (touch now k l) = length l.
Proof. unfold touch. apply List.length_map. Qed.

Lemma find_entry_remove_key k l : find_entry k (remove_key k l) = None.
Proof.
  unfold find_entry, remove_key. induction l as [|e l IH]; simpl; [reflexivity|].
  destruct (has_key k e) eqn:Hk; simpl; [exact IH|]. rewrite Hk. exact IH.
Qed.

Lemma find_entry_app k l1 l2 :
  find_entry k (l1 ++ l2) =
    match find_entry k l1 with
    | Some e => Some e
    | None => find_entry k l2
    end.
Proof.
  unfold find_entry. induction l1 as [|e l1 IH]; simpl; [reflexivity|].
  destruct (has_key k e); [reflexivity | exact IH].
Qed.

Lemma find_entry_skip k l1 v l2 :
  key v <> k ->
  find_entry k (l1 ++ v :: l2) = find_entry k (l1 ++ l2).
Proof.
  intros Hne. rewrite !find_entry_app.
  destruct (find_entry k l1); [reflexivity|].
  unfold find_entry. simpl. unfold has_key at 1.
  rewrite bool_decide_eq_false_2 by exact Hne. reflexivity.
Qed.

Lemma find_entry_Some k l e :
  find_entry k l = Some e -> In e l /\ key e = k.
Proof.
  unfold find_entry. intros Hfind. apply List.find_some in Hfind as [Hin Hk].
  split; [exact Hin|]. unfold has_key in Hk. apply bool_decide_eq_true in Hk. exact Hk.
Qed.

(** *** [get] *)

Lemma LRU_get_capacity now k c : capacity (snd (LRU_get now k c)) = capacity c.
Proof.
  unfold LRU_get. destruct (find_entry k (items c)); [|reflexivity].
  destruct (expired c now _); reflexivity.
Qed.

Lemma LRU_get_ttl now k c : ttl (snd (LRU_get now k c)) = ttl c.
Proof.
  unfold LRU_get. destruct (find_entry k (items c)); [|reflexivity].
  destruct (expired c now _); reflexivity.
Qed.

Lemma LRU_get_length now k c :
  length (items (snd (LRU_get now k c))) <= length (items c).
Proof.
  unfold LRU_get. destruct (find_entry k (items c)); [|reflexivity].
  destruct (expired c now _); simpl.
  - apply remove_key_length.
  - rewrite touch_length. reflexivity.
Qed.

Lemma LRU_get_origin now k c e' :
  In e' (items (snd (LRU_get now k c))) ->
  exists e, In e (items c) /\ origin e = origin e'.
Proof.
  unfold LRU_get. destruct (find_entry k (items c)); [|eauto].
  destruct (expired c now _); simpl.
  - unfold remove_key. intros Hin. apply List.filter_In in Hin as [Hin _]. eauto.
  - unfold touch. intros Hin. apply List.in_map_iff in Hin as (e & <- & Hin).
    exists e. split; [exact Hin|]. destruct (has_key k e); reflexivity.
Qed.

(** A hit returns the value of an entry of that key whose age is within
    the time-to-live. *)
Lemma LRU_get_hit now k c x :
  fst (LRU_get now k c) = Some x ->
  exists e, In e (items c) /\ key e = k /\ value e = x /\
            (now <= insertedAt e + ttl c)%Z.
Proof.
  unfold LRU_get. destruct (find_entry k (items c)) as [e|] eqn:Hfind; [|discriminate].
  destruct (expired c now e) eqn:Hexp; [discriminate|]. simpl. intros [= <-].
  apply find_entry_Some in Hfind as [Hin Hk].
  unfold expired in Hexp. apply Z.ltb_ge in Hexp. eauto.
Qed.

(** *** [set] *)

(** What [set] does to the entries: the old entry of the key goes, the
    fresh one comes last, and then either nothing is evicted, or the count
    was over the capacity and exactly one entry, a least-recently-used one,
    is taken out. *)
Lemma LRU_set_evicting_spec now k x c :
  let items' := (remove_key k (items c) ++ [fresh_entry now k x])%list in
  match snd (LRU_set_evicting now k x c) with
  | None =>
      items (LRU_set now k x c) = items' /\ length items' <= capacity c
  | Some victim =>
      capacity c < length items' /\
      (exists l1 l2, items' = (l1 ++ victim :: l2)%list /\
                     items (LRU_set now k x c) = (l1 ++ l2)%list) /\
      (forall e, In e items' -> (lastAccessedAt victim <= lastAccessedAt e)%Z)
  end.
Proof.
  intros items'. unfold LRU_set, LRU_set_evicting. fold items'.
  destruct (capacity c <? length items')%nat eqn:Hover.
  - apply Nat.ltb_lt in Hover.
    destruct (evict items') as [[victim rest]|] eqn:Hev; simpl.
    + split; [exact Hover|]. split.
      * apply evict_split, Hev.
      * apply (evict_least _ _ _ Hev).
    + destruct (evict_is_Some items') as [? Hsome]; [|congruence].
      unfold items'. destruct (remove_key k (items c)); discriminate.
  - apply Nat.ltb_ge in Hover. simpl. split; [reflexivity | exact Hover].
Qed.

Lemma LRU_set_capacity now k x c : capacity (LRU_set now k x c) = capacity c.
Proof.
  unfold LRU_set, LRU_set_evicting. destruct (_ <? _)%nat; [|reflexivity].
  destruct (evict _) as [[? ?]|]; reflexivity.
Qed.

Lemma LRU_set_ttl now k x c : ttl (LRU_set now k x c) = ttl c.
Proof.
  unfold LRU_set, LRU_set_evicting. destruct (_ <? _)%nat; [|reflexivity].
  destruct (evict _) as [[? ?]|]; reflexivity.
Qed.

Lemma LRU_set_length now k x c :
  length (items c) <= capacity c ->
  length (items (LRU_set now k x c)) <= capacity c.
Proof.
  intros Hbound. pose proof (LRU_set_evicting_spec now k x c) as Hspec.
  simpl in Hspec. destruct (snd (LRU_set_evicting now k x c)) as [victim|].
  - destruct Hspec as (_ & (l1 & l2 & Hitems & ->) & _).
    apply (f_equal (@length _)) in Hitems.
    rewrite !length_app in Hitems. simpl in Hitems.
    pose proof (remove_key_length k (items c)). rewrite length_app. lia.
  - destruct Hspec as [-> Hle]. exact Hle.
Qed.

Lemma LRU_set_origin now k x c e' :
  In e' (items (LRU_set now k x c)) ->
  origin e' = (now, k, x) \/ exists e, In e (items c) /\ origin e = origin e'.
Proof.
  intros Hin.
  assert (Hin' : In e' (remove_key k (items c) ++ [fresh_entry now k x])).
  { pose proof (LRU_set_evicting_spec now k x c) as Hspec. simpl in Hspec.
    destruct (snd (LRU_set_evicting now k x c)) as [victim|].
    - destruct Hspec as (_ & (l1 & l2 & -> & Hrest) & _). rewrite Hrest in Hin.
      apply List.in_app_iff in Hin. apply List.in_app_iff. simpl. tauto.
    - destruct Hspec as [<- _]. exact Hin. }
  apply List.in_app_iff in Hin' as [Hold|[<-|[]]].
  - right. unfold remove_key in Hold. apply List.filter_In in Hold as [Hold _]. eauto.
  - left. reflexivity.
Qed.

(** A [set] followed by a [get] of the same key returns the value, unless
    the [set] evicted the entry it had just inserted or the entry has
    expired by the time of the [get]. *)
Lemma LRU_set_get now now' k x c :
  (forall victim, snd (LRU_set_evicting now k x c) = Some victim -> key victim <> k) ->
  (now' <= now + ttl c)%Z ->
  fst (LRU_get now' k (LRU_set now k x c)) = Some x.
Proof.
  intros Hkept Hlive.
  assert (Hfind : find_entry k (items (LRU_set now k x c)) = Some (fresh_entry now k x)).
  { assert (Hfresh : find_entry k (remove_key k (items c) ++ [fresh_entry now k x])
                     = Some (fresh_entry now k x)).
    { rewrite find_entry_app, find_entry_remove_key. unfold find_entry. simpl.
      unfold has_key. simpl. rewrite bool_decide_eq_true_2 by reflexivity. reflexivity. }
    pose proof (LRU_set_evicting_spec now k x c) as Hspec. simpl in Hspec.
    destruct (snd (LRU_set_evicting now k x c)) as [victim|].
    - destruct Hspec as (_ & (l1 & l2 & Hitems & ->) & _).
      rewrite Hitems in Hfresh. rewrite find_entry_skip in Hfresh; [exact Hfresh|].
      apply Hkept. reflexivity.
    - destruct Hspec as [-> _]. exact Hfresh. }
  unfold LRU_get. rewrite Hfind. unfold expired. rewrite LRU_set_ttl. simpl.
  assert (Hnot : (now + ttl c <? now')%Z = false) by (apply Z.ltb_ge; lia).
  rewrite Hnot. reflexivity.
Qed.

(** With room for one entry at least and a clock that has not gone back,
    [set] never evicts the entry it has just inserted. *)
Lemma evict_not_last l f v rest :
  l <> [] ->
  (forall e, In e l -> (lastAccessedAt e <= lastAccessedAt f)%Z) ->
  evict (l ++ [f]) = Some (v, rest) ->
  In v l.
Proof.
  revert v rest. induction l as [|e l IH]; intros v rest Hne Hle; [congruence|].
  simpl. destruct (evict (l ++ [f])) as [[v' rest']|] eqn:Hev.
  - destruct (lastAccessedAt v' <? lastAccessedAt e)%Z eqn:Hlt;
      intros [= <- <-]; [|left; reflexivity].
    right. destruct l as [|e' l].
    + simpl in Hev. injection Hev as <- <-.
      apply Z.ltb_lt in Hlt. specialize (Hle e (or_introl eq_refl)). lia.
    + apply (IH v' rest'); [discriminate | | reflexivity].
      intros e0 Hin. apply Hle. right. exact Hin.
  - intros [= <- <-]. left. reflexivity.
Qed.

Lemma LRU_set_keeps_fresh now k x c :
  0 < capacity c ->
  (forall e, In e (items c) -> (lastAccessedAt e <= now)%Z) ->
  forall victim, snd (LRU_set_evicting now k x c) = Some victim -> key victim <> k.
Proof.
  intros Hroom Hclock victim. unfold LRU_set_evicting.
  destruct (capacity c <? _)%nat eqn:Hover; [|discriminate].
  apply Nat.ltb_lt in Hover. rewrite length_app in Hover. simpl in Hover.
  destruct (evict _) as [[v rest]|] eqn:Hev; [|discriminate].
  simpl. intros [= <-]. apply evict_not_last in Hev.
  - unfold remove_key in Hev. apply List.filter_In in Hev as [_ Hk].
    unfold has_key in Hk. apply negb_true_iff, bool_decide_eq_false in Hk. exact Hk.
  - intros Hnil. rewrite Hnil in Hover. simpl in Hover. lia.
  - intros e Hin. unfold remove_key in Hin. apply List.filter_In in Hin as [Hin _].
    simpl. apply Hclock, Hin.
Qed.

End LRU_properties.

(** ** Recency *)

Section LRU_recency.

Context {K V : Type} `{EqDecision K}.
Implicit Types (c : LRU K V) (e : CacheEntry K V).

(** After [get] with a key, the entries of that key have just been
    accessed and the others are as they were. *)
Lemma LRU_get_entries now k c e' :
  In e' (items (snd (LRU_get now k c))) ->
  key e' = k /\ lastAccessedAt e' = now \/ key e' <> k /\ In e' (items c).
Proof.
  unfold LRU_get. destruct (find_entry k (items c)) as [e|] eqn:Hfind.
  - destruct (expired c now e); simpl.
    + unfold remove_key. intros Hin. apply List.filter_In in Hin as [Hin Hk].
      right. split; [|exact Hin].
      unfold has_key in Hk. apply negb_true_iff, bool_decide_eq_false in Hk. exact Hk.
    + unfold touch. intros Hin. apply List.in_map_iff in Hin as (e0 & <- & Hin).
      unfold has_key. destruct (bool_decide (key e0 = k)) eqn:Hk.
      * left. apply bool_decide_eq_true in Hk. simpl. auto.
      * right. apply bool_decide_eq_false in Hk. auto.
  - simpl. intros Hin. right. split; [|exact Hin].
    unfold find_entry in Hfind.
    pose proof (List.find_none _ _ Hfind e' Hin) as Hk.
    unfold has_key in Hk. apply bool_decide_eq_false in Hk. exact Hk.
Qed.

(** After [set] with a key, an entry is the fresh one or an entry of
    another key that was there before. *)
Lemma LRU_set_entries now k x c e' :
  In e' (items (LRU_set now k x c)) ->
  e' = fresh_entry now k x \/ key e' <> k /\ In e' (items c).
Proof.
  intros Hin.
  assert (Hin' : In e' (remove_key k (items c) ++ [fresh_entry now k x])).
  { pose proof (LRU_set_evicting_spec now k x c) as Hspec. simpl in Hspec.
    destruct (snd (LRU_set_evicting now k x c)) as [victim|].
    - destruct Hspec as (_ & (l1 & l2 & -> & Hrest) & _). rewrite Hrest in Hin.
      apply List.in_app_iff in Hin. apply List.in_app_iff. simpl. tauto.
    - destruct Hspec as [<- _]. exact Hin. }
  apply List.in_app_iff in Hin' as [Hold|[<-|[]]]; [|left; reflexivity].
  right. unfold remove_key in Hold. apply List.filter_In in Hold as [Hold Hk].
  split; [|exact Hold].
  unfold has_key in Hk. apply negb_true_iff, bool_decide_eq_false in Hk. exact Hk.
Qed.

End LRU_recency.

(** ** The default store *)

Section Store_properties.

Context {DocumentNode : Type}.
Implicit Types (st : LRU JsPrimitive (StoredDocument DocumentNode))
               (ops : list (StoreOp DocumentNode)).

Lemma run_ops_snoc {S} (s : PersistedQueryStore DocumentNode S) ops op (st0 : S) :
  run_ops s (ops ++ [op]) st0 = apply_op s (run_ops s ops st0) op.
Proof. unfold run_ops. rewrite fold_left_app. reflexivity. Qed.

(** What stays true of the cache of [createLRUStore(maxSize, ttl)] through
    every sequence of calls: its configuration, the bound on the number of
    entries, and that every entry was inserted by a [put] of the sequence,
    at the time the entry records. *)
Lemma createLRUStore_invariant (maxSize : option nat) (timeToLive : option Z) ops :
  let store := createLRUStore (DocumentNode := DocumentNode) maxSize timeToLive in
  let st : LRU JsPrimitive (StoredDocument DocumentNode) :=
    run_ops (methods store) ops (initial store) in
  capacity st = default DEFAULT_MAX maxSize /\
  ttl st = default DEFAULT_TTL timeToLive /\
  length (items st) <= capacity st /\
  forall e, In e (items st) ->
            In (Op_put (insertedAt e) (key e) (value e)) ops.
Proof.
  induction ops as [|op ops IH] using rev_ind; simpl.
  - repeat split; [lia | intros e []].
  - rewrite run_ops_snoc. simpl in IH.
    set (st := run_ops _ ops _) in *. destruct IH as (Hcap & Httl & Hlen & Hfrom).
    destruct op as [now hash | now hash query]; simpl.
    + rewrite LRU_get_capacity, LRU_get_ttl. repeat split; try assumption.
      * pose proof (LRU_get_length now hash st). lia.
      * intros e' Hin. apply LRU_get_origin in Hin as (e & Hin & Horigin).
        injection Horigin as <- <- <-. apply List.in_app_iff. left. apply Hfrom, Hin.
    + rewrite LRU_set_capacity, LRU_set_ttl. repeat split; try assumption.
      * apply LRU_set_length, Hlen.
      * intros e' Hin. apply List.in_app_iff.
        apply LRU_set_origin in Hin as [Horigin | (e & Hin & Horigin)].
        -- right. injection Horigin as -> -> ->. left. reflexivity.
        -- left. injection Horigin as <- <- <-. apply Hfrom, Hin.
Qed.

Lemma last_access_snoc ops (op : StoreOp DocumentNode) hash :
  last_access (ops ++ [op]) hash =
    if bool_decide (op_hash op = hash) then Some (op_time op) else last_access ops hash.
Proof. unfold last_access. rewrite fold_left_app. reflexivity. Qed.

(** The time of last access that an entry records is the time of the last
    call, [get] or [put], that was made with its hash. *)
Lemma createLRUStore_last_access (maxSize : option nat) (timeToLive : option Z) ops :
  let store := createLRUStore (DocumentNode := DocumentNode) maxSize timeToLive in
  let st : LRU JsPrimitive (StoredDocument DocumentNode) :=
    run_ops (methods store) ops (initial store) in
  forall e, In e (items st) -> last_access ops (key e) = Some (lastAccessedAt e).
Proof.
  induction ops as [|op ops IH] using rev_ind; simpl.
  - intros e [].
  - rewrite run_ops_snoc. simpl in IH. set (st := run_ops _ ops _) in *.
    intros e Hin. rewrite last_access_snoc.
    destruct op as [now hash | now hash query]; simpl in Hin |- *.
    + apply LRU_get_entries in Hin as [[Hk Ht]|[Hk Hin]].
      * rewrite bool_decide_eq_true_2 by (symmetry; exact Hk). rewrite Ht. reflexivity.
      * rewrite bool_decide_eq_false_2 by (intros Heq; apply Hk; symmetry; exact Heq).
        apply IH, Hin.
    + apply LRU_set_entries in Hin as [->|[Hk Hin]].
      * simpl. rewrite bool_decide_eq_true_2 by reflexivity. reflexivity.
      * rewrite bool_decide_eq_false_2 by (intros Heq; apply Hk; symmetry; exact Heq).
        apply IH, Hin.
Qed.

(** C6. The store of [createLRUStore(maxSize, ttl)], after any sequence of
    [get] and [put] calls. Its capacity and time-to-live are the configured
    ones, 1000 entries and 3600000 ms by default. The entry count is at
    most the capacity. A document that [get] returns was [put] under that
    hash by a call of the sequence, no longer ago than the time-to-live.
    The time of last access of every entry is the time of the last call,
    [get] or [put], made with its hash. A [put] evicts at most one entry:
    either the entries become the old ones without the overwritten one and
    with the new one last, or the store was at capacity and one more
    entry, whose last access is the oldest of all, is taken out: no entry
    that stays was last read or written before the evicted one. *)
Theorem C6_bounded_store (maxSize : option nat) (timeToLive : option Z) ops :
  let store := createLRUStore (DocumentNode := DocumentNode) maxSize timeToLive in
  let st : LRU JsPrimitive (StoredDocument DocumentNode) :=
    run_ops (methods store) ops (initial store) in
  (capacity st = default 1000 maxSize /\
   ttl st = default 3600000%Z timeToLive)
  /\
  length (items st) <= capacity st
  /\
  (forall now hash query,
     fst (get (methods store) now hash st) = Some query ->
     exists t, In (Op_put t hash query) ops /\ (now <= t + ttl st)%Z)
  /\
  (forall now hash query,
     let items' := (remove_key hash (items st) ++ [fresh_entry now hash query])%list in
     put (methods store) now hash query st
       = fst (LRU_set_evicting now hash query st) /\
     match snd (LRU_set_evicting now hash query st) with
     | None => items (put (methods store) now hash query st) = items'
     | Some victim =>
         length (items st) = capacity st /\
         (exists l1 l2,
            items' = (l1 ++ victim :: l2)%list /\
            items (put (methods store) now hash query st) = (l1 ++ l2)%list) /\
         (forall e, In e items' -> (lastAccessedAt victim <= lastAccessedAt e)%Z)
     end)
  /\
  (forall e, In e (items st) -> last_access ops (key e) = Some (lastAccessedAt e))
  /\
  (forall now hash query victim,
     snd (LRU_set_evicting now hash query st) = Some victim ->
     exists accessed,
       last_access (ops ++ [Op_put now hash query]) (key victim) = Some accessed /\
       forall e,
         In e (items (put (methods store) now hash query st)) ->
         exists accessed',
           last_access (ops ++ [Op_put now hash query]) (key e) = Some accessed' /\
           (accessed <= accessed')%Z).
Proof.
  intros store st.
  destruct (createLRUStore_invariant maxSize timeToLive ops)
    as (Hcap & Httl & Hlen & Hfrom).
  fold store in Hcap, Httl, Hlen, Hfrom. fold st in Hcap, Httl, Hlen, Hfrom.
  pose proof (createLRUStore_last_access maxSize timeToLive ops) as Haccess.
  simpl in Haccess. fold store in Haccess. fold st in Haccess.
  split; [split; assumption|]. split; [exact Hlen|]. split; [|split; [|split]].
  - intros now hash query Hhit. simpl in Hhit.
    apply LRU_get_hit in Hhit as (e & Hin & <- & <- & Hage).
    exists (insertedAt e). split; [apply Hfrom, Hin | exact Hage].
  - intros now hash query items'. split; [reflexivity|].
    pose proof (LRU_set_evicting_spec now hash query st) as Hspec. simpl in Hspec.
    fold items' in Hspec.
    destruct (snd (LRU_set_evicting now hash query st)) as [victim|].
    + destruct Hspec as (Hover & Hsplit & Hleast).
      split; [|split; assumption].
      unfold items' in Hover. rewrite length_app in Hover. simpl in Hover.
      pose proof (remove_key_length hash (items st)). lia.
    + apply Hspec.
  - exact Haccess.
  - intros now hash query victim Hvictim.
    pose proof (createLRUStore_last_access maxSize timeToLive
                  (ops ++ [Op_put now hash query])) as Hafter.
    simpl in Hafter. rewrite run_ops_snoc in Hafter. simpl in Hafter.
    fold store in Hafter. fold st in Hafter.
    pose proof (LRU_set_evicting_spec now hash query st) as Hspec. simpl in Hspec.
    rewrite Hvictim in Hspec. destruct Hspec as (_ & (l1 & l2 & Hitems & Hrest) & Hleast).
    assert (Hkeys : forall e,
              In e (remove_key hash (items st) ++ [fresh_entry now hash query]) ->
              last_access (ops ++ [Op_put now hash query]) (key e)
                = Some (lastAccessedAt e)).
    { intros e Hin. rewrite last_access_snoc. simpl.
      apply List.in_app_iff in Hin as [Hold|[<-|[]]].
      - unfold remove_key in Hold. apply List.filter_In in Hold as [Hold Hk].
        unfold has_key in Hk. apply negb_true_iff, bool_decide_eq_false in Hk.
        rewrite bool_decide_eq_false_2 by (intros Heq; apply Hk; symmetry; exact Heq).
        apply Haccess, Hold.
      - simpl. rewrite bool_decide_eq_true_2 by reflexivity. reflexivity. }
    exists (lastAccessedAt victim). split.
    + apply Hkeys. rewrite Hitems. apply List.in_app_iff. right. left. reflexivity.
    + intros e Hin. exists (lastAccessedAt e). split; [apply Hafter, Hin|].
      apply Hleast. rewrite Hitems. simpl in Hin. unfold LRU_set in Hrest.
      unfold LRU_set in Hin. rewrite Hrest in Hin.
      apply List.in_app_iff in Hin. apply List.in_app_iff. simpl. tauto.
Qed.

(** C8. [put(h, d)] followed by [get(h)] on the store of
    [createLRUStore(maxSize, ttl)], in any state reached by calls to it:
    when the [put] did not evict the entry of [h] itself and the [get]
    comes no later than the time-to-live after the [put], the [get] returns
    [d], a text or a document, as it was given. *)
Theorem C8_put_get_round_trip (maxSize : option nat) (timeToLive : option Z) ops
    (now now' : Z) (h : JsPrimitive) (d : StoredDocument DocumentNode) :
  let store := createLRUStore (DocumentNode := DocumentNode) maxSize timeToLive in
  let st : LRU JsPrimitive (StoredDocument DocumentNode) :=
    run_ops (methods store) ops (initial store) in
  (forall victim, snd (LRU_set_evicting now h d st) = Some victim -> key victim <> h) ->
  (now' <= now + default DEFAULT_TTL timeToLive)%Z ->
  fst (get (methods store) now' h (put (methods store) now h d st)) = Some d.
Proof.
  intros store st Hkept Hlive.
  destruct (createLRUStore_invariant maxSize timeToLive ops) as (_ & Httl & _).
  fold store in Httl. fold st in Httl.
  simpl. apply LRU_set_get; [exact Hkept | rewrite Httl; exact Hlive].
Qed.

End Store_properties.

(** ** The negotiation on concrete requests *)

Lemma checksum_createHash_size algo text :
  length (checksum_createHash algo text) = digest_size algo.
Proof. unfold checksum_createHash. apply repeat_length. Qed.

(** C1 at three requests: a text under a hash that is not its own, the
    same when the store holds a document under that hash, and a text under
    its hash. *)
Lemma C1_verify_supplied_text_witness :
  onParse checksum_createHash default_plugin forged_request
          (fresh_world default_plugin)
    = (Throw (HASH_MISMATCH_error default_plugin), fresh_world default_plugin)
  /\
  onParse checksum_createHash shared_store_plugin forged_request
          (world_holding shared_store_plugin "deadbeef" (Document "{ secret }"))
    = (Throw (HASH_MISMATCH_error shared_store_plugin),
       world_holding shared_store_plugin "deadbeef" (Document "{ secret }"))
  /\
  onParse checksum_createHash default_plugin matching_request
          (fresh_world default_plugin)
    = (Normal (Some (after_parse (JsString hello_hash))),
       fresh_world default_plugin).
Proof.
  split; [|split].
  - apply (C1_verify_supplied_text checksum_createHash default_plugin
             forged_request
             {| hash := JsString "deadbeef"; version := JsNumber 1 |}
             hello_query (fresh_world default_plugin));
      [vm_compute; reflexivity .. | vm_compute; discriminate].
  - apply (C1_verify_supplied_text checksum_createHash shared_store_plugin
             forged_request
             {| hash := JsString "deadbeef"; version := JsNumber 1 |}
             hello_query
             (world_holding shared_store_plugin "deadbeef" (Document "{ secret }")));
      [vm_compute; reflexivity .. | vm_compute; discriminate].
  - apply (C1_verify_supplied_text checksum_createHash default_plugin
             matching_request
             {| hash := JsString hello_hash; version := JsNumber 1 |}
             hello_query (fresh_world default_plugin));
      vm_compute; reflexivity.
Defined.

(** C2 fails at a request to the default plugin whose extension has a
    hash and no [version]: the version is absent from the wire, and the
    negotiation fails with INVALID_VERSION. *)
Lemma C2_version_absent_counterexample :
  get_property (persistedQuery_extension (context versionless_request)) "version"
    = JsUndefined
  /\
  onParse checksum_createHash default_plugin versionless_request
          (fresh_world default_plugin)
    = (Throw INVALID_VERSION_error, fresh_world default_plugin).
Proof. split; vm_compute; reflexivity. Qed.

(** C2, as amended, at that request: the extractor hands over version 0,
    which is not the expected version 1. *)
Lemma C2_version_check_witness :
  version {| hash := JsString hello_hash; version := JsNumber 0 |} = JsNumber 0
  /\
  (thrown_code (fst (onParse checksum_createHash default_plugin
                       versionless_request (fresh_world default_plugin)))
     = Some codes.INVALID_VERSION <->
   expectedVersion default_plugin <> 0%Z).
Proof.
  pose proof (C2_version_check checksum_createHash default_plugin
                versionless_request
                {| hash := JsString hello_hash; version := JsNumber 0 |}
                (fresh_world default_plugin)) as H.
  destruct H as (_ & _ & _ & H); [vm_compute; reflexivity|].
  destruct H as [H _]; [vm_compute; reflexivity|].
  apply H. left. vm_compute. reflexivity.
Defined.

(** C3 fails at the plugin configured with [{ version: undefined }]: a
    descriptor of version 2 fails with INVALID_VERSION. *)
Lemma C3_version_undefined_counterexample :
  opt_version version_undefined = None
  /\
  onParse checksum_createHash version_undefined_plugin version2_request
          (fresh_world version_undefined_plugin)
    = (Throw INVALID_VERSION_error, fresh_world version_undefined_plugin).
Proof. split; vm_compute; reflexivity. Qed.

(** C3, as amended, at that plugin and request. *)
Lemma C3_undefined_version_is_default_witness :
  expectedVersion version_undefined_plugin = DEFAULT_PROTOCOL_VERSION
  /\
  onParse checksum_createHash version_undefined_plugin version2_request
          (fresh_world version_undefined_plugin)
    = (Throw INVALID_VERSION_error, fresh_world version_undefined_plugin).
Proof.
  apply (C3_undefined_version_is_default checksum_createHash version_undefined
           version2_request
           {| hash := JsString hello_hash; version := JsNumber 2 |} 2
           (fresh_world version_undefined_plugin));
    [reflexivity | vm_compute; reflexivity | reflexivity | lia].
Defined.

(** C4, as amended, at the default plugin: a text under its hash returns
    the function; called with an error it writes nothing, called with the
    parsed document it makes the single [put]. *)
Example C4_example :
  let w := fresh_world default_plugin in
  let hook := after_parse (JsString hello_hash) in
  fst (onParse checksum_createHash default_plugin matching_request w)
    = Normal (Some hook)
  /\ run_after_parse default_plugin hook (result_error (Parser_error "")) w
     = (Normal tt, w)
  /\ puts_of (store_calls
               (snd (run_after_parse default_plugin hook
                       (result_document hello_query) w)))
     = [(JsString hello_hash, Document hello_query)].
Proof. repeat split; vm_compute; reflexivity. Qed.

(** C4 fails at a text sent under its hash whose execution fails: the text
    parses, so the function that [onParse] returned is called with the
    document and puts it in the store; the execution completes with an
    error, and the document stays in the store. *)
Lemma C4_failed_execution_counterexample :
  fst (handle_request checksum_createHash default_plugin failing_execute
                      matching_request (fresh_world default_plugin))
    = Some false
  /\
  puts_of (store_calls
             (snd (handle_request checksum_createHash default_plugin
                     failing_execute matching_request
                     (fresh_world default_plugin))))
    = [(JsString hello_hash, Document hello_query)]
  /\
  map value
      (items (store_state
                (snd (handle_request checksum_createHash default_plugin
                        failing_execute matching_request
                        (fresh_world default_plugin)))))
    = [Document hello_query].
Proof. repeat split; vm_compute; reflexivity. Qed.

(** C5 fails at a store of the application that holds the empty text
    under the hash of the request: [get] returns the entry, and the
    negotiation fails with NOT_FOUND. *)
Lemma C5_empty_text_counterexample :
  fst (get (methods (store shared_store_plugin)) 0 (JsString hello_hash)
           (store_state (world_holding shared_store_plugin hello_hash (Text ""))))
    = Some (Text "")
  /\
  fst (onParse checksum_createHash shared_store_plugin hash_only_request
               (world_holding shared_store_plugin hello_hash (Text "")))
    = Throw NOT_FOUND_error.
Proof. split; vm_compute; reflexivity. Qed.

(** C5, as amended: a descriptor alone, with the document in the store,
    resolves to that document. *)
Lemma C5_lookup_by_hash_witness :
  fst (onParse checksum_createHash shared_store_plugin hash_only_request
               (world_holding shared_store_plugin hello_hash (Document hello_query)))
    = Normal None
  /\
  parsed_document
    (snd (onParse checksum_createHash shared_store_plugin hash_only_request
                  (world_holding shared_store_plugin hello_hash
                                 (Document hello_query))))
    = Some hello_query.
Proof.
  pose proof (C5_lookup_by_hash checksum_createHash shared_store_plugin
                hash_only_request
                {| hash := JsString hello_hash; version := JsNumber 1 |}
                (world_holding shared_store_plugin hello_hash
                               (Document hello_query))) as H.
  destruct H as [_ H]; [vm_compute; reflexivity ..|].
  specialize (H eq_refl _ _ eq_refl). simpl in H.
  destruct H as (_ & _ & H). exact H.
Defined.

(** A stored text that the parser rejects: the outcome is the parser's
    error. *)
Example C5_stored_text_rejected :
  fst (onParse checksum_createHash shared_store_plugin hash_only_request
               (world_holding shared_store_plugin hello_hash (Text "hello")))
    = Throw (Parser_error "Syntax Error: Unexpected Name").
Proof. vm_compute; reflexivity. Qed.

(** C7 at two requests: one without extensions, one whose extension is the
    empty object. *)
Lemma C7_default_extractor_witness :
  getPersistedQueryFromContext plain_context sha256 = Normal None
  /\
  onParse checksum_createHash default_plugin plain_request
          (fresh_world default_plugin)
    = (Normal (Some (after_parse (JsString hello_hash))),
       fresh_world default_plugin)
  /\
  getPersistedQueryFromContext empty_extension sha256 = Throw NOT_FOUND_error.
Proof.
  split; [|split].
  - apply (C7_default_extractor (DocumentNode := string) checksum_createHash
             plain_context sha256).
    reflexivity.
  - apply (proj2 (proj1 (C7_default_extractor checksum_createHash plain_context
                             sha256) eq_refl)
             no_options plain_request hello_query (fresh_world default_plugin));
      [reflexivity | reflexivity | reflexivity | discriminate].
  - apply (proj2 (C7_default_extractor (DocumentNode := string)
                    checksum_createHash empty_extension sha256) ∅);
      vm_compute; reflexivity.
Defined.

(** C9 fails at a text sent under its hash to the default plugin, whose
    [writeToContext] holds: the negotiation resolves and the context is
    not extended. *)
Lemma C9_resolved_from_text_counterexample :
  writeToContext default_plugin = true
  /\
  fst (onParse checksum_createHash default_plugin matching_request
               (fresh_world default_plugin))
    = Normal (Some (after_parse (JsString hello_hash)))
  /\
  context_symbol (snd (onParse checksum_createHash default_plugin
                         matching_request (fresh_world default_plugin)))
    = None.
Proof. repeat split; vm_compute; reflexivity. Qed.

(** C9, as amended, on a hit: the context is extended. *)
Example C9_example :
  is_Some (context_symbol
             (snd (onParse checksum_createHash shared_store_plugin
                           hash_only_request
                           (world_holding shared_store_plugin hello_hash
                                          (Document hello_query))))).
Proof. vm_compute. eexists; reflexivity. Qed.

(** C10 fails at a request with a text and a descriptor of version 2
    without hash: the negotiation fails with INVALID_VERSION. *)
Lemma C10_wrong_version_counterexample :
  getPersistedQuery default_plugin (context version2_hashless_request)
    = Normal (Some {| hash := JsUndefined; version := JsNumber 2 |})
  /\
  query_of_source (source version2_hashless_request) = Some hello_query
  /\
  onParse checksum_createHash default_plugin version2_hashless_request
          (fresh_world default_plugin)
    = (Throw INVALID_VERSION_error, fresh_world default_plugin)
  /\
  thrown_code (fst (onParse checksum_createHash default_plugin
                      version2_hashless_request (fresh_world default_plugin)))
    <> Some codes.HASH_MISMATCH.
Proof. repeat split; vm_compute; (reflexivity || discriminate). Qed.

(** C10, as amended, at a request with a text and a descriptor of version
    1 without hash. *)
Lemma C10_falsy_hash_with_text_witness :
  onParse checksum_createHash default_plugin hashless_request
          (fresh_world default_plugin)
    = (Throw (HASH_MISMATCH_error default_plugin), fresh_world default_plugin)
  /\
  thrown_code (fst (onParse checksum_createHash default_plugin hashless_request
                      (fresh_world default_plugin)))
    = Some codes.HASH_MISMATCH
  /\
  thrown_code (fst (onParse checksum_createHash default_plugin hashless_request
                      (fresh_world default_plugin)))
    <> Some codes.HASH_MISSING.
Proof.
  apply (C10_falsy_hash_with_text checksum_createHash default_plugin
           hashless_request
           {| hash := JsUndefined; version := JsNumber 1 |}
           hello_query (fresh_world default_plugin));
    [apply checksum_createHash_size | vm_compute; reflexivity ..].
Defined.

(** ** The default store on concrete calls *)

(** C6 on a store of two entries: the third key evicts the entry that was
    used least recently, and an entry is a miss, and removed, once older
    than the time-to-live. *)
Example C6_example :
  let st := run_ops (methods small_store) three_keys (initial small_store) in
  map key (items st) = [JsString "a"; JsString "c"]
  /\ fst (get (methods small_store) 101 (JsString "a") st) = Some (Text "{ a }")
  /\ fst (get (methods small_store) 102 (JsString "a") st) = None
  /\ map key (items (snd (get (methods small_store) 102 (JsString "a") st)))
     = [JsString "c"].
Proof. repeat split; vm_compute; reflexivity. Qed.

(** C8 on the default store, empty: a text put under its hash is returned
    one second later. *)
Lemma C8_put_get_round_trip_witness :
  let store := createLRUStore (DocumentNode := string) None None in
  fst (get (methods store) 1000 (JsString hello_hash)
           (put (methods store) 0 (JsString hello_hash) (Text hello_query)
                (initial store)))
    = Some (Text hello_query).
Proof.
  apply (C8_put_get_round_trip (DocumentNode := string) None None []
           0 1000 (JsString hello_hash) (Text hello_query)).
  - intros victim Hevicted. vm_compute in Hevicted. discriminate.
  - vm_compute. discriminate.
Defined.

(** * Further properties of the plugin *)

(** ** The default extractor, case by case *)

(** X1. What [getPersistedQueryFromContext] does, by the value under
    [persistedQuery]: a falsy value gives no descriptor; a truthy value
    without a numeric [version] and without the hash field of the algorithm
    throws NOT_FOUND, and a truthy primitive always does; any other value
    gives the descriptor made of the hash field and of the version, 0 for a
    version that is [undefined] or [null]. The version of a descriptor is
    therefore never [undefined] or [null]. *)
Theorem X1_extractor_outcomes (ctx : DefaultContext) (algorithm : HashAlgorithm) :
  let pq := persistedQuery_extension ctx in
  let wire_version := get_property pq "version" in
  let wire_hash := get_property pq (algorithm_name algorithm +:+ "Hash") in
  (getPersistedQueryFromContext ctx algorithm = Normal None <->
   truthy_value pq = false)
  /\
  (getPersistedQueryFromContext ctx algorithm = Throw NOT_FOUND_error <->
   truthy_value pq = true /\ typeof_number wire_version = false /\
   wire_hash = JsUndefined)
  /\
  (forall p, pq = JsPrim p ->
     getPersistedQueryFromContext ctx algorithm =
       if truthy p then Throw NOT_FOUND_error else Normal None)
  /\
  (forall d,
     getPersistedQueryFromContext ctx algorithm = Normal (Some d) <->
     truthy_value pq = true /\
     (typeof_number wire_version = true \/ wire_hash <> JsUndefined) /\
     d = {| hash := wire_hash; version := nullish_or wire_version (JsNumber 0) |})
  /\
  (forall d,
     getPersistedQueryFromContext ctx algorithm = Normal (Some d) ->
     version d <> JsUndefined /\ version d <> JsNull).
Proof.
  intros pq wire_version wire_hash.
  assert (Hdef : getPersistedQueryFromContext ctx algorithm =
                 if truthy_value pq then
                   if negb (typeof_number wire_version) && strict_eq wire_hash JsUndefined
                   then Throw NOT_FOUND_error
                   else Normal (Some {| hash := wire_hash;
                                        version := nullish_or wire_version (JsNumber 0) |})
                 else Normal None) by reflexivity.
  assert (Hprim : forall p, pq = JsPrim p ->
                    truthy_value pq = truthy p /\
                    typeof_number wire_version = false /\ wire_hash = JsUndefined).
  { intros p Hp. subst wire_version wire_hash. rewrite Hp. auto. }
  rewrite Hdef. clear Hdef. clearbody wire_version wire_hash. clearbody pq.
  assert (Hcases : (typeof_number wire_version = false /\ wire_hash = JsUndefined /\
                    negb (typeof_number wire_version) && strict_eq wire_hash JsUndefined = true)
                   \/ ((typeof_number wire_version = true \/ wire_hash <> JsUndefined) /\
                       negb (typeof_number wire_version) && strict_eq wire_hash JsUndefined = false)).
  { destruct (typeof_number wire_version); simpl; [right; auto|].
    destruct (strict_eq wire_hash JsUndefined) eqn:Heq.
    - apply strict_eq_true in Heq. left. auto.
    - apply strict_eq_false in Heq. right. auto. }
  split; [|split; [|split; [|split]]].
  - destruct (truthy_value pq); [|tauto].
    destruct (_ && _); split; discriminate.
  - destruct (truthy_value pq); [|split; [discriminate | intros [? _]; discriminate]].
    destruct Hcases as [(Hv & Hh & ->)|(Hc & ->)].
    + tauto.
    + split; [discriminate|]. intros (_ & Hv & Hh). destruct Hc; congruence.
  - intros p Hp. destruct (Hprim p Hp) as (-> & Hv & Hh).
    destruct (truthy p); [|reflexivity].
    rewrite Hv, Hh. reflexivity.
  - intros d. destruct (truthy_value pq);
      [|split; [discriminate | intros [? _]; discriminate]].
    destruct Hcases as [(Hv & Hh & ->)|(Hc & ->)].
    + split; [discriminate|]. intros (_ & Hc & _). destruct Hc; congruence.
    + split.
      * intros [= <-]. auto.
      * intros (_ & _ & ->). reflexivity.
  - intros d. destruct (truthy_value pq); [|discriminate].
    destruct (_ && _); [discriminate|]. intros [= <-]. simpl.
    destruct wire_version; split; discriminate.
Qed.

(** ** More on the negotiation *)

Lemma hash_field_injective (a b : HashAlgorithm) :
  algorithm_name a +:+ "Hash" = algorithm_name b +:+ "Hash" -> a = b.
Proof. destruct a, b; simpl; intros Heq; (reflexivity || discriminate). Qed.

Lemma hash_field_not_version (a : HashAlgorithm) :
  algorithm_name a +:+ "Hash" <> "version".
Proof. destruct a; discriminate. Qed.

Section Negotiation_cases.

Context {DocumentNode : Type}.
Variable createHash : HashAlgorithm -> string -> list byte.

Local Abbreviation onParse := (@onParse DocumentNode createHash).
Local Abbreviation generateHash := (generateHash createHash).

(** The extractor of a plugin made without [resolvePersistedQuery]. *)
Lemma default_getPersistedQuery
    (options : UseAutomaticPersistedQueryOptions DocumentNode) (ctx : DefaultContext) :
  opt_resolvePersistedQuery options = None ->
  getPersistedQuery (useAutomaticPersistedQueries (Some options)) ctx =
    getPersistedQueryFromContext ctx
      (hashAlgorithm (useAutomaticPersistedQueries (Some options))).
Proof. intros Hresolve. simpl. rewrite Hresolve. reflexivity. Qed.

(** X2. The configured algorithm names the field that is read. When the
    client sends its hash under the field of another algorithm, with the
    expected version, the plugin sees a descriptor without hash: a request
    with text fails with HASH_MISMATCH, whatever the hash sent, and a
    request without text fails with HASH_MISSING. *)
Theorem X2_hash_under_another_algorithm
    (options : UseAutomaticPersistedQueryOptions DocumentNode)
    (payload : OnParseEventPayload DocumentNode) (sent : HashAlgorithm) (h : string)
    (w : World DocumentNode (St (store (useAutomaticPersistedQueries (Some options))))) :
  opt_resolvePersistedQuery options = None ->
  hashAlgorithm (useAutomaticPersistedQueries (Some options)) <> sent ->
  persistedQuery_extension (context payload)
    = JsObject (<[algorithm_name sent +:+ "Hash" := JsString h]>
                  {["version" :=
                      JsNumber (expectedVersion
                                  (useAutomaticPersistedQueries (Some options)))]}) ->
  onParse (useAutomaticPersistedQueries (Some options)) payload w =
    match query_of_source (source payload) with
    | Some _ =>
        (Throw (HASH_MISMATCH_error (useAutomaticPersistedQueries (Some options))), w)
    | None => (Throw HASH_MISSING_error, w)
    end.
Proof.
  intros Hresolve Hother Hext.
  set (p := useAutomaticPersistedQueries (Some options)) in *.
  assert (Hpq : getPersistedQuery p (context payload)
                = Normal (Some {| hash := JsUndefined;
                                  version := JsNumber (expectedVersion p) |})).
  { unfold p. rewrite default_getPersistedQuery by exact Hresolve. fold p.
    unfold getPersistedQueryFromContext. rewrite Hext. simpl.
    rewrite lookup_insert_ne by apply hash_field_not_version.
    rewrite lookup_singleton_eq. simpl.
    rewrite lookup_insert_ne
      by (intros Heq; apply Hother; symmetry; apply hash_field_injective, Heq).
    rewrite lookup_singleton_ne
      by (intros Heq; symmetry in Heq; revert Heq; apply hash_field_not_version).
    reflexivity. }
  assert (Hver : version_mismatch (JsNumber (expectedVersion p)) (expectedVersion p) = false).
  { unfold version_mismatch, strict_eq. simpl.
    rewrite bool_decide_eq_true_2 by reflexivity. reflexivity. }
  destruct (query_of_source (source payload)) as [query|] eqn:Hquery.
  - rewrite (onParse_with_text createHash p payload _ query w Hpq Hver Hquery).
    reflexivity.
  - rewrite (onParse_lookup createHash p payload _ w Hpq Hver Hquery). reflexivity.
Qed.

(** X3. With the default extractor, a [version] on the wire that is not a
    number (a text, a boolean), together with a hash, reaches [onParse] as
    it is and passes the version check whatever the expected version: the
    negotiation never fails with INVALID_VERSION, and a text sent under its
    own hash resolves. *)
Theorem X3_non_number_version_passes
    (options : UseAutomaticPersistedQueryOptions DocumentNode)
    (payload : OnParseEventPayload DocumentNode)
    (fields : gmap string JsPrimitive) (x hv : JsPrimitive)
    (w : World DocumentNode (St (store (useAutomaticPersistedQueries (Some options))))) :
  opt_resolvePersistedQuery options = None ->
  persistedQuery_extension (context payload) = JsObject fields ->
  fields !! "version" = Some x ->
  typeof_number x = false -> x <> JsUndefined -> x <> JsNull ->
  fields !! (algorithm_name (hashAlgorithm (useAutomaticPersistedQueries (Some options)))
             +:+ "Hash") = Some hv ->
  hv <> JsUndefined ->
  getPersistedQuery (useAutomaticPersistedQueries (Some options)) (context payload)
    = Normal (Some {| hash := hv; version := x |})
  /\
  thrown_code (fst (onParse (useAutomaticPersistedQueries (Some options)) payload w))
    <> Some codes.INVALID_VERSION
  /\
  (forall query,
     query_of_source (source payload) = Some query ->
     hv = JsString (generateHash query
                      (hashAlgorithm (useAutomaticPersistedQueries (Some options)))) ->
     onParse (useAutomaticPersistedQueries (Some options)) payload w
       = (Normal (Some (after_parse hv)), w)).
Proof.
  intros Hresolve Hext Hversion Hnot Hundef Hnull Hhash Hdefined.
  set (p := useAutomaticPersistedQueries (Some options)) in *.
  assert (Hpq : getPersistedQuery p (context payload)
                = Normal (Some {| hash := hv; version := x |})).
  { unfold p. rewrite default_getPersistedQuery by exact Hresolve. fold p.
    remember (hashAlgorithm p) as algorithm eqn:Halgorithm. clear Halgorithm.
    unfold getPersistedQueryFromContext. rewrite Hext. simpl.
    rewrite Hversion, Hhash. simpl. rewrite Hnot. simpl.
    apply strict_eq_false in Hdefined. rewrite Hdefined. simpl.
    destruct x; simpl in *; congruence. }
  assert (Hver : version_mismatch x (expectedVersion p) = false).
  { unfold version_mismatch. rewrite Hnot. reflexivity. }
  split; [exact Hpq|]. split.
  - apply (onParse_past_version_check createHash p payload _ w Hpq Hver).
  - intros query Hquery ->.
    rewrite (onParse_with_text createHash p payload _ query w Hpq Hver Hquery).
    simpl. unfold strict_eq. rewrite bool_decide_eq_true_2 by reflexivity. reflexivity.
Qed.

Ltac open_row :=
  repeat match goal with
         | H : exists _, _ |- _ => destruct H
         | H : _ /\ _ |- _ => destruct H
         | H : _ \/ _ |- _ => destruct H
         end;
  simplify_eq.

Ltac false_row :=
  split; [intros Hcode; vm_compute in Hcode; discriminate Hcode
         | intros Hrow; open_row; congruence].

(** X4. Given what the extractor returned, each error code of [onParse]
    is thrown in exactly one situation. HASH_MISSING: a descriptor that
    passes the version check, no text, a falsy hash. HASH_MISMATCH: such a
    descriptor, a text, and a hash that is not the hash of the text.
    NOT_FOUND: such a descriptor, no text, a truthy hash, and a store that
    answers nothing or an empty text. INTERNAL_SERVER_ERROR: no descriptor
    and a text that is absent or empty. *)
Theorem X4_error_table (p : Plugin DocumentNode)
    (payload : OnParseEventPayload DocumentNode) (d : option PersistedQuery)
    (w : World DocumentNode (St (store p))) :
  getPersistedQuery p (context payload) = Normal d ->
  (thrown_code (fst (onParse p payload w)) = Some codes.HASH_MISSING <->
   exists pq,
     d = Some pq /\ version_mismatch (version pq) (expectedVersion p) = false /\
     query_of_source (source payload) = None /\ truthy (hash pq) = false)
  /\
  (thrown_code (fst (onParse p payload w)) = Some codes.HASH_MISMATCH <->
   exists pq text,
     d = Some pq /\ version_mismatch (version pq) (expectedVersion p) = false /\
     query_of_source (source payload) = Some text /\
     hash pq <> JsString (generateHash text (hashAlgorithm p)))
  /\
  (thrown_code (fst (onParse p payload w)) = Some codes.NOT_FOUND <->
   exists pq,
     d = Some pq /\ version_mismatch (version pq) (expectedVersion p) = false /\
     query_of_source (source payload) = None /\ truthy (hash pq) = true /\
     document_truthy
       (fst (get (methods (store p)) (now w) (hash pq) (store_state w))) = false)
  /\
  (thrown_code (fst (onParse p payload w)) = Some "INTERNAL_SERVER_ERROR" <->
   d = None /\
   (query_of_source (source payload) = None \/
    query_of_source (source payload) = Some "")).
Proof.
  intros Hd. destruct d as [pq|].
  - destruct (version_mismatch (version pq) (expectedVersion p)) eqn:Hver.
    { rewrite (onParse_version_mismatch createHash p payload pq w Hd Hver).
      simpl. split; [|split; [|split]]; false_row. }
    destruct (query_of_source (source payload)) as [text|] eqn:Hquery.
    + rewrite (onParse_with_text createHash p payload pq text w Hd Hver Hquery).
      destruct (strict_eq _ _) eqn:Heq; simpl.
      * apply strict_eq_true in Heq.
        split; [|split; [|split]];
          (split; [discriminate | intros Hrow; open_row; congruence]).
      * apply strict_eq_false in Heq.
        split; [false_row|]. split; [|split; false_row].
        split; [intros _; eauto 10 | reflexivity].
    + rewrite (onParse_lookup createHash p payload pq w Hd Hver Hquery).
      destruct (truthy (hash pq)) eqn:Hhash.
      * destruct (get (methods (store p)) (now w) (hash pq) (store_state w))
          as [cachedQuery st] eqn:Hget.
        simpl. destruct (document_truthy cachedQuery) eqn:Htruthy.
        -- destruct cachedQuery as [[text|document]|];
             simpl in Htruthy |- *; try discriminate Htruthy;
             [unfold call_parseFn; destruct (parseFn payload text); simpl|];
             (split; [|split; [|split]];
              (split; [discriminate
                      | intros Hrow; open_row;
                        try (rewrite Hget in *; simpl in *); congruence])).
        -- simpl. split; [false_row|]. split; [false_row|]. split; [|false_row].
           split; [|reflexivity]. intros _. exists pq.
           rewrite Hget. simpl. auto.
      * simpl. split; [|split; [|split]]; try false_row.
        split; [intros _; eauto 10 | reflexivity].
  - rewrite (onParse_no_descriptor createHash p payload w Hd).
    destruct (query_of_source (source payload)) as [text|] eqn:Hquery.
    + destruct (truthy (JsString text)) eqn:Htext; simpl.
      * apply truthy_string in Htext.
        split; [|split; [|split]];
          (split; [discriminate | intros Hrow; open_row; congruence]).
      * assert (text = "").
        { destruct (String.eqb_spec text ""); [assumption|].
          apply truthy_string in n. congruence. }
        subst text. split; [|split; [|split]]; try false_row.
        split; [intros _; auto | reflexivity].
    + simpl. split; [|split; [|split]]; try false_row.
      split; [intros _; auto | reflexivity].
Qed.

Lemma onParse_text_world (p : Plugin DocumentNode)
    (payload : OnParseEventPayload DocumentNode) (text : string)
    (w : World DocumentNode (St (store p))) :
  query_of_source (source payload) = Some text ->
  snd (onParse p payload w) = w.
Proof.
  intros Hquery.
  destruct (getPersistedQuery p (context payload)) as [[pq|]|e] eqn:Hpq.
  - destruct (version_mismatch (version pq) (expectedVersion p)) eqn:Hver.
    + rewrite (onParse_version_mismatch createHash p payload pq w Hpq Hver). reflexivity.
    + rewrite (onParse_with_text createHash p payload pq text w Hpq Hver Hquery).
      destruct (strict_eq _ _); reflexivity.
  - rewrite (onParse_no_descriptor createHash p payload w Hpq), Hquery.
    destruct (truthy (JsString text)); reflexivity.
  - rewrite (onParse_extractor_throws createHash p payload e w Hpq). reflexivity.
Qed.

(** X5. A request that carries a text never reaches the store and changes
    nothing: whatever the descriptor and the outcome, the world after
    [onParse] is the world before. In particular a text is never answered
    from the cache. *)
Theorem X5_text_leaves_the_world (p : Plugin DocumentNode)
    (payload : OnParseEventPayload DocumentNode) (text : string)
    (w : World DocumentNode (St (store p))) :
  query_of_source (source payload) = Some text ->
  snd (onParse p payload w) = w.
Proof. apply onParse_text_world. Qed.

(** X6. The calls that reach a store. One call of [onParse] makes no call
    to the store, or one [get]; one call of the function it returns makes
    no call, or one [put] of a document, never of a text. The key of either
    call is truthy: a store is never asked about, or made to hold,
    [undefined] or the empty text. *)
Theorem X6_store_calls (p : Plugin DocumentNode)
    (payload : OnParseEventPayload DocumentNode)
    (w : World DocumentNode (St (store p))) :
  (store_calls (snd (onParse p payload w)) = store_calls w \/
   exists hash,
     truthy hash = true /\
     store_calls (snd (onParse p payload w))
       = (store_calls w ++ [Call_get hash])%list)
  /\
  forall (hook : AfterParseHook) (result : AfterParseResult DocumentNode)
         (w1 : World DocumentNode (St (store p))),
    store_calls (snd (run_after_parse p hook result w1)) = store_calls w1 \/
    exists hash document,
      truthy hash = true /\
      store_calls (snd (run_after_parse p hook result w1))
        = (store_calls w1 ++ [Call_put hash (Document document)])%list.
Proof.
  split.
  - destruct (getPersistedQuery p (context payload)) as [[pq|]|e] eqn:Hpq.
    + destruct (version_mismatch (version pq) (expectedVersion p)) eqn:Hver.
      { rewrite (onParse_version_mismatch createHash p payload pq w Hpq Hver). auto. }
      destruct (query_of_source (source payload)) as [text|] eqn:Hquery.
      * rewrite (onParse_text_world p payload text w Hquery). auto.
      * rewrite (onParse_lookup createHash p payload pq w Hpq Hver Hquery).
        destruct (truthy (hash pq)) eqn:Hhash; [|auto].
        right. exists (hash pq). split; [exact Hhash|].
        destruct (get (methods (store p)) (now w) (hash pq) (store_state w))
          as [cachedQuery st].
        simpl. destruct (document_truthy cachedQuery); [|reflexivity].
        destruct (match cachedQuery with
                  | Some (Text text) => call_parseFn payload text
                  | Some (Document document) => Normal document
                  | None => Throw NOT_FOUND_error
                  end); reflexivity.
    + destruct (query_of_source (source payload)) as [text|] eqn:Hquery.
      * rewrite (onParse_text_world p payload text w Hquery). auto.
      * rewrite (onParse_no_descriptor createHash p payload w Hpq), Hquery. auto.
    + rewrite (onParse_extractor_throws createHash p payload e w Hpq). auto.
  - intros [queryHash] [| e | document] w1; simpl; auto.
    destruct (truthy queryHash) eqn:Hhash; simpl; [|auto].
    right. exists queryHash, document. auto.
Qed.

(** What [onParse] can throw, when the extractor throws nothing but the
    NOT_FOUND error. *)
Lemma onParse_thrown (p : Plugin DocumentNode)
    (payload : OnParseEventPayload DocumentNode)
    (w : World DocumentNode (St (store p))) :
  (forall e, getPersistedQuery p (context payload) = Throw e -> e = NOT_FOUND_error) ->
  match fst (onParse p payload w) with
  | Throw (PersistedQuery_error e) =>
      In (code e) [codes.NOT_FOUND; codes.HASH_MISSING; codes.INVALID_VERSION;
                   codes.HASH_MISMATCH; "INTERNAL_SERVER_ERROR"]
  | Throw (Parser_error msg) =>
      query_of_source (source payload) = None /\
      exists pq text,
        getPersistedQuery p (context payload) = Normal (Some pq) /\
        fst (get (methods (store p)) (now w) (hash pq) (store_state w))
          = Some (Text text) /\
        parseFn payload text = inr msg
  | Normal _ => True
  end.
Proof.
  intros Hextractor.
  destruct (getPersistedQuery p (context payload)) as [[pq|]|e] eqn:Hpq.
  - destruct (version_mismatch (version pq) (expectedVersion p)) eqn:Hver.
    { rewrite (onParse_version_mismatch createHash p payload pq w Hpq Hver).
      simpl. tauto. }
    destruct (query_of_source (source payload)) as [text|] eqn:Hquery.
    + rewrite (onParse_with_text createHash p payload pq text w Hpq Hver Hquery).
      destruct (strict_eq _ _); simpl; tauto.
    + rewrite (onParse_lookup createHash p payload pq w Hpq Hver Hquery).
      destruct (truthy (hash pq)); [|simpl; tauto].
      destruct (get (methods (store p)) (now w) (hash pq) (store_state w))
        as [cachedQuery st] eqn:Hget.
      simpl. destruct (document_truthy cachedQuery) eqn:Htruthy; [|simpl; tauto].
      destruct cachedQuery as [[text|document]|]; simpl; [|exact I|discriminate Htruthy].
      unfold call_parseFn. destruct (parseFn payload text) as [document|msg] eqn:Hparse;
        simpl; [exact I|]. split; [reflexivity|]. exists pq, text.
      rewrite Hget. auto.
  - rewrite (onParse_no_descriptor createHash p payload w Hpq).
    destruct (query_of_source (source payload)) as [text|]; [|simpl; tauto].
    destruct (truthy (JsString text)); simpl; tauto.
  - rewrite (onParse_extractor_throws createHash p payload e w Hpq).
    rewrite (Hextractor e eq_refl). simpl. tauto.
Qed.

Lemma extractor_throws_NOT_FOUND (ctx : DefaultContext) (algorithm : HashAlgorithm)
    (e : Exception) :
  getPersistedQueryFromContext ctx algorithm = Throw e -> e = NOT_FOUND_error.
Proof.
  unfold getPersistedQueryFromContext.
  destruct (truthy_value _); [|discriminate].
  destruct (_ && _); [|discriminate]. intros [= <-]. reflexivity.
Qed.

(** X7. The errors of a plugin made by [useAutomaticPersistedQueries],
    whatever its options, its resolver, when it has one, returning a
    descriptor or nothing without throwing. An error of the plugin carries
    one of five codes: NOT_FOUND, HASH_MISSING, INVALID_VERSION,
    HASH_MISMATCH or INTERNAL_SERVER_ERROR; the code
    PERSISTED_QUERY_NOT_SUPPORTED is never used. A syntax error is thrown
    only for a request without text, and it is the error of [parseFn] on
    the text that [store.get] returned for the hash of the descriptor. *)
Theorem X7_error_codes
    (options : option (UseAutomaticPersistedQueryOptions DocumentNode))
    (payload : OnParseEventPayload DocumentNode)
    (w : World DocumentNode (St (store (useAutomaticPersistedQueries options)))) :
  (forall e,
     fst (onParse (useAutomaticPersistedQueries options) payload w)
       = Throw (PersistedQuery_error e) ->
     In (code e) [codes.NOT_FOUND; codes.HASH_MISSING; codes.INVALID_VERSION;
                  codes.HASH_MISMATCH; "INTERNAL_SERVER_ERROR"] /\
     code e <> codes.NOT_SUPPORTED)
  /\
  (forall msg,
     fst (onParse (useAutomaticPersistedQueries options) payload w)
       = Throw (Parser_error msg) ->
     query_of_source (source payload) = None /\
     (exists text, parseFn payload text = inr msg) /\
     exists pq text,
       getPersistedQuery (useAutomaticPersistedQueries options) (context payload)
         = Normal (Some pq) /\
       fst (get (methods (store (useAutomaticPersistedQueries options))) (now w)
                (hash pq) (store_state w))
         = Some (Text text) /\
       parseFn payload text = inr msg).
Proof.
  pose proof (onParse_thrown (useAutomaticPersistedQueries options) payload w) as Hthrown.
  assert (Hextractor : forall e,
            getPersistedQuery (useAutomaticPersistedQueries options) (context payload)
              = Throw e -> e = NOT_FOUND_error).
  { intros e. simpl.
    destruct (opt_resolvePersistedQuery (default no_options options));
      [discriminate | apply extractor_throws_NOT_FOUND]. }
  specialize (Hthrown Hextractor).
  split.
  - intros e He. rewrite He in Hthrown. split; [exact Hthrown|].
    intros Hcode. rewrite Hcode in Hthrown. simpl in Hthrown.
    repeat destruct Hthrown as [Hthrown|Hthrown]; try discriminate Hthrown.
    exact Hthrown.
  - intros msg He. rewrite He in Hthrown.
    destruct Hthrown as (Hquery & pq & text & Hpq & Hget & Hparse).
    split; [exact Hquery|]. split; [exists text; exact Hparse|].
    exists pq, text. auto.
Qed.

(** X9. Every text that parses is saved under its own hash. When
    [onParse] returns a function, the request carried a text, and the
    function, called with a document, makes exactly the call
    [put(generateHash(text), document)]: the test of [queryHash] never
    stops it, a digest being never empty, and the key is never a hash that
    the client chose. *)
Theorem X9_saved_under_own_hash (p : Plugin DocumentNode)
    (payload : OnParseEventPayload DocumentNode) (hook : AfterParseHook)
    (w : World DocumentNode (St (store p))) :
  (forall a t, length (createHash a t) = digest_size a) ->
  fst (onParse p payload w) = Normal (Some hook) ->
  exists text,
    query_of_source (source payload) = Some text /\
    forall (document : DocumentNode) (w1 : World DocumentNode (St (store p))),
      store_calls (snd (run_after_parse p hook (result_document document) w1))
        = (store_calls w1 ++
           [Call_put (JsString (generateHash text (hashAlgorithm p)))
                     (Document document)])%list /\
      store_state (snd (run_after_parse p hook (result_document document) w1))
        = put (methods (store p)) (now w1)
              (JsString (generateHash text (hashAlgorithm p))) (Document document)
              (store_state w1).
Proof.
  intros Hsize Hhook.
  assert (Hput : forall text,
            hook = after_parse (JsString (generateHash text (hashAlgorithm p))) ->
            forall (document : DocumentNode) (w1 : World DocumentNode (St (store p))),
      store_calls (snd (run_after_parse p hook (result_document document) w1))
        = (store_calls w1 ++
           [Call_put (JsString (generateHash text (hashAlgorithm p)))
                     (Document document)])%list /\
      store_state (snd (run_after_parse p hook (result_document document) w1))
        = put (methods (store p)) (now w1)
              (JsString (generateHash text (hashAlgorithm p))) (Document document)
              (store_state w1)).
  { intros text -> document w1. unfold run_after_parse.
    pose proof (generateHash_nonempty createHash text (hashAlgorithm p) Hsize) as Hne.
    apply truthy_string in Hne. rewrite Hne. split; reflexivity. }
  destruct (getPersistedQuery p (context payload)) as [[pq|]|e] eqn:Hpq.
  - destruct (version_mismatch (version pq) (expectedVersion p)) eqn:Hver.
    { rewrite (onParse_version_mismatch createHash p payload pq w Hpq Hver) in Hhook.
      discriminate Hhook. }
    destruct (query_of_source (source payload)) as [text|] eqn:Hquery.
    + rewrite (onParse_with_text createHash p payload pq text w Hpq Hver Hquery) in Hhook.
      destruct (strict_eq _ _) eqn:Heq; [|discriminate Hhook].
      apply strict_eq_true in Heq. simpl in Hhook. injection Hhook as <-.
      exists text. split; [reflexivity|]. apply Hput. rewrite Heq. reflexivity.
    + rewrite (onParse_lookup createHash p payload pq w Hpq Hver Hquery) in Hhook.
      destruct (truthy (hash pq)); [|discriminate Hhook].
      destruct (get (methods (store p)) (now w) (hash pq) (store_state w))
        as [cachedQuery st].
      simpl in Hhook. destruct (document_truthy cachedQuery); [|discriminate Hhook].
      destruct (match cachedQuery with
                | Some (Text text) => call_parseFn payload text
                | Some (Document document) => Normal document
                | None => Throw NOT_FOUND_error
                end); discriminate Hhook.
  - rewrite (onParse_no_descriptor createHash p payload w Hpq) in Hhook.
    destruct (query_of_source (source payload)) as [text|]; [|discriminate Hhook].
    destruct (truthy (JsString text)); [|discriminate Hhook].
    simpl in Hhook. injection Hhook as <-.
    exists text. split; [reflexivity|]. apply Hput. reflexivity.
  - rewrite (onParse_extractor_throws createHash p payload e w Hpq) in Hhook.
    discriminate Hhook.
Qed.

(** X8. The protocol end to end, on any store. A first request sends a
    text under its hash and the document parsed from it is handed to the
    function that [onParse] returned; a later request sends the hash alone.
    If the store, asked at the time of the second request, returns what was
    put at the first, the second request resolves to that same document. *)
Theorem X8_register_then_lookup (p : Plugin DocumentNode)
    (first second : OnParseEventPayload DocumentNode) (pq : PersistedQuery)
    (text : string) (document : DocumentNode)
    (w later : World DocumentNode (St (store p))) :
  (forall a t, length (createHash a t) = digest_size a) ->
  getPersistedQuery p (context first) = Normal (Some pq) ->
  getPersistedQuery p (context second) = Normal (Some pq) ->
  version_mismatch (version pq) (expectedVersion p) = false ->
  query_of_source (source first) = Some text ->
  hash pq = JsString (generateHash text (hashAlgorithm p)) ->
  query_of_source (source second) = None ->
  store_state later
    = put (methods (store p)) (now w) (hash pq) (Document document) (store_state w) ->
  fst (get (methods (store p)) (now later) (hash pq) (store_state later))
    = Some (Document document) ->
  onParse p first w = (Normal (Some (after_parse (hash pq))), w)
  /\
  store_state (snd (run_after_parse p (after_parse (hash pq))
                      (result_document document) w))
    = store_state later
  /\
  fst (onParse p second later) = Normal None
  /\
  parsed_document (snd (onParse p second later)) = Some document.
Proof.
  intros Hsize Hfirst Hsecond Hver Htext Hhash Hnone Hlater Hstore.
  assert (Htruthy : truthy (hash pq) = true).
  { rewrite Hhash. apply truthy_string, generateHash_nonempty, Hsize. }
  split; [|split].
  - rewrite (onParse_with_text createHash p first pq text w Hfirst Hver Htext).
    rewrite <- Hhash. unfold strict_eq.
    rewrite bool_decide_eq_true_2 by reflexivity. reflexivity.
  - unfold run_after_parse. rewrite Htruthy. simpl. symmetry. exact Hlater.
  - rewrite (onParse_lookup createHash p second pq later Hsecond Hver Hnone).
    rewrite Htruthy.
    destruct (get (methods (store p)) (now later) (hash pq) (store_state later))
      as [cachedQuery st].
    simpl in Hstore. subst cachedQuery. simpl. split; reflexivity.
Qed.

(** The shape of a hash: two lower-case hexadecimal digits per byte of
    the digest. *)
Lemma hex_digit_lower (n : N) : is_lower_hex (hex_digit n) = true.
Proof.
  destruct n as [|q]; [reflexivity|].
  do 4 (try destruct q as [q|q|]); reflexivity.
Qed.

Lemma hex_lower (bytes : list byte) (c : ascii) :
  In c (list_ascii_of_string (hex bytes)) -> is_lower_hex c = true.
Proof.
  induction bytes as [|b rest IH]; simpl; [tauto|].
  intros [<-|[<-|Hin]]; [apply hex_digit_lower .. | apply IH, Hin].
Qed.

Lemma generateHash_length (text : string) (algo : HashAlgorithm) :
  (forall a t, length (createHash a t) = digest_size a) ->
  String.length (generateHash text algo) = 2 * digest_size algo.
Proof. intros Hsize. rewrite <- (Hsize algo text). apply hex_length. Qed.

(** X10. Hashes are compared as they are, character by character. With
    a descriptor of acceptable version (not a number, or the expected
    one), a hash sent with a text fails with HASH_MISMATCH as soon as its
    length is not twice the size of the digest of the configured algorithm,
    or it holds a character outside [0-9a-f]: the digest of the text in
    upper case, or with spaces around it, is not accepted. *)
Theorem X10_hash_compared_exactly (p : Plugin DocumentNode)
    (payload : OnParseEventPayload DocumentNode) (pq : PersistedQuery)
    (text h : string) (w : World DocumentNode (St (store p))) :
  (forall a t, length (createHash a t) = digest_size a) ->
  getPersistedQuery p (context payload) = Normal (Some pq) ->
  version_mismatch (version pq) (expectedVersion p) = false ->
  query_of_source (source payload) = Some text ->
  hash pq = JsString h ->
  String.length h <> 2 * digest_size (hashAlgorithm p) \/
  (exists c, In c (list_ascii_of_string h) /\ is_lower_hex c = false) ->
  onParse p payload w = (Throw (HASH_MISMATCH_error p), w).
Proof.
  intros Hsize Hpq Hver Hquery Hhash Hshape.
  rewrite (onParse_with_text createHash p payload pq text w Hpq Hver Hquery).
  assert (Hne : hash pq <> JsString (generateHash text (hashAlgorithm p))).
  { rewrite Hhash. intros [= ->]. destruct Hshape as [Hlen|(c & Hin & Hc)].
    - apply Hlen, generateHash_length, Hsize.
    - apply hex_lower in Hin. congruence. }
  apply strict_eq_false in Hne. rewrite Hne. reflexivity.
Qed.

(** X11. [parseFn] is used for one thing only: to parse a text that the
    store returned. For a request with a text, or when the store holds no
    text, [onParse] does the same whatever the parser it is given. *)
Theorem X11_parser_only_for_stored_text (p : Plugin DocumentNode)
    (ctx : DefaultContext) (src : Source)
    (parse1 parse2 : string -> DocumentNode + string)
    (w : World DocumentNode (St (store p))) :
  is_Some (query_of_source src) \/
  (forall hash text,
     fst (get (methods (store p)) (now w) hash (store_state w)) <> Some (Text text)) ->
  onParse p {| context := ctx; parseFn := parse1; source := src |} w
    = onParse p {| context := ctx; parseFn := parse2; source := src |} w.
Proof.
  intros Hcase.
  set (payload1 := {| context := ctx; parseFn := parse1; source := src |}).
  set (payload2 := {| context := ctx; parseFn := parse2; source := src |}).
  destruct (getPersistedQuery p ctx) as [[pq|]|e] eqn:Hpq.
  - destruct (version_mismatch (version pq) (expectedVersion p)) eqn:Hver.
    { rewrite (onParse_version_mismatch createHash p payload1 pq w Hpq Hver).
      rewrite (onParse_version_mismatch createHash p payload2 pq w Hpq Hver).
      reflexivity. }
    destruct (query_of_source src) as [text|] eqn:Hquery.
    + rewrite (onParse_with_text createHash p payload1 pq text w Hpq Hver Hquery).
      rewrite (onParse_with_text createHash p payload2 pq text w Hpq Hver Hquery).
      reflexivity.
    + rewrite (onParse_lookup createHash p payload1 pq w Hpq Hver Hquery).
      rewrite (onParse_lookup createHash p payload2 pq w Hpq Hver Hquery).
      destruct Hcase as [[? Hsome]|Hstore]; [discriminate Hsome|].
      specialize (Hstore (hash pq)).
      destruct (truthy (hash pq)); [|reflexivity].
      destruct (get (methods (store p)) (now w) (hash pq) (store_state w))
        as [[[text|document]|] st]; simpl in *.
      * destruct (Hstore text eq_refl).
      * reflexivity.
      * reflexivity.
  - rewrite (onParse_no_descriptor createHash p payload1 w Hpq).
    rewrite (onParse_no_descriptor createHash p payload2 w Hpq). reflexivity.
  - rewrite (onParse_extractor_throws createHash p payload1 e w Hpq).
    rewrite (onParse_extractor_throws createHash p payload2 e w Hpq). reflexivity.
Qed.

End Negotiation_cases.

(** ** The store that the plugin makes for itself *)

Section Own_store.

Context {DocumentNode : Type}.
Variable createHash : HashAlgorithm -> string -> list byte.

Local Abbreviation onParse := (@onParse DocumentNode createHash).

(** What one call does to the state of the store: nothing, one [get], or
    one [put] of a document. *)
Lemma apply_call_store_state (p : Plugin DocumentNode)
    (w : World DocumentNode (St (store p))) (c : PluginCall DocumentNode) :
  store_state (apply_call createHash p w c) = store_state w \/
  (exists hash,
     store_state (apply_call createHash p w c)
       = snd (get (methods (store p)) (now w) hash (store_state w))) \/
  (exists hash document,
     store_state (apply_call createHash p w c)
       = put (methods (store p)) (now w) hash (Document document) (store_state w)).
Proof.
  destruct c as [payload | [queryHash] result | t]; simpl.
  - destruct (getPersistedQuery p (context payload)) as [[pq|]|e] eqn:Hpq.
    + destruct (version_mismatch (version pq) (expectedVersion p)) eqn:Hver.
      { rewrite (onParse_version_mismatch createHash p payload pq w Hpq Hver). auto. }
      destruct (query_of_source (source payload)) as [text|] eqn:Hquery.
      * rewrite (onParse_text_world createHash p payload text w Hquery). auto.
      * rewrite (onParse_lookup createHash p payload pq w Hpq Hver Hquery).
        destruct (truthy (hash pq)); [|auto].
        right. left. exists (hash pq).
        destruct (get (methods (store p)) (now w) (hash pq) (store_state w))
          as [cachedQuery st].
        simpl. destruct (document_truthy cachedQuery); [|reflexivity].
        destruct (match cachedQuery with
                  | Some (Text text) => call_parseFn payload text
                  | Some (Document document) => Normal document
                  | None => Throw NOT_FOUND_error
                  end); reflexivity.
    + destruct (query_of_source (source payload)) as [text|] eqn:Hquery.
      * rewrite (onParse_text_world createHash p payload text w Hquery). auto.
      * rewrite (onParse_no_descriptor createHash p payload w Hpq), Hquery. auto.
    + rewrite (onParse_extractor_throws createHash p payload e w Hpq). auto.
  - destruct result as [| e | document]; simpl; auto.
    destruct (truthy queryHash); simpl; [|auto].
    right. right. exists queryHash, document. reflexivity.
  - auto.
Qed.

Lemma run_calls_snoc (p : Plugin DocumentNode) calls c
    (w : World DocumentNode (St (store p))) :
  run_calls createHash p (calls ++ [c]) w
    = apply_call createHash p (run_calls createHash p calls w) c.
Proof. unfold run_calls. rewrite fold_left_app. reflexivity. Qed.

(** X12. A plugin configured without [store] makes its own with
    [createLRUStore()], and nothing else reaches that store. Through every
    sequence of calls to [onParse] and to the functions it returns, at any
    times, the store holds parsed documents only, never a text. So a
    request that sends a hash alone and finds an entry resolves to the
    stored document: the parser is not called and the outcome is not
    NOT_FOUND. *)
Theorem X12_own_store_holds_documents
    (algorithm : option HashAlgorithm) (expected : option Z)
    (resolve : option (DefaultContext -> option PersistedQuery))
    (write : option bool) (calls : list (PluginCall DocumentNode)) :
  let p : Plugin DocumentNode :=
    useAutomaticPersistedQueries
      (Some {| opt_hashAlgorithm := algorithm; opt_version := expected;
               opt_resolvePersistedQuery := resolve; opt_store := None;
               opt_writeToContext := write |}) in
  let w := run_calls createHash p calls (fresh_world p) in
  (forall e : CacheEntry JsPrimitive (StoredDocument DocumentNode),
     In e (items (store_state w)) -> exists document, value e = Document document)
  /\
  (forall (payload : OnParseEventPayload DocumentNode) (pq : PersistedQuery)
          (cached : StoredDocument DocumentNode),
     getPersistedQuery p (context payload) = Normal (Some pq) ->
     version_mismatch (version pq) (expectedVersion p) = false ->
     query_of_source (source payload) = None ->
     truthy (hash pq) = true ->
     fst (get (methods (store p)) (now w) (hash pq) (store_state w)) = Some cached ->
     exists document,
       cached = Document document /\
       fst (onParse p payload w) = Normal None /\
       parsed_document (snd (onParse p payload w)) = Some document).
Proof.
  intros p w.
  assert (Hinv : forall e : CacheEntry JsPrimitive (StoredDocument DocumentNode),
            In e (items (store_state w)) -> exists document, value e = Document document).
  { subst w. induction calls as [|c calls' IH] using rev_ind.
    - intros e [].
    - rewrite run_calls_snoc. set (w' := run_calls createHash p calls' (fresh_world p)) in *.
      intros e Hin.
      destruct (apply_call_store_state p w' c) as [Hsame|[(hash & Hget)|(hash & document & Hput)]].
      + rewrite Hsame in Hin. apply IH, Hin.
      + rewrite Hget in Hin. simpl in Hin.
        apply LRU_get_origin in Hin as (e0 & Hin & Horigin).
        injection Horigin as _ _ <-. apply IH, Hin.
      + rewrite Hput in Hin. simpl in Hin.
        apply LRU_set_origin in Hin as [Horigin|(e0 & Hin & Horigin)].
        * injection Horigin as _ _ ->. eauto.
        * injection Horigin as _ _ <-. apply IH, Hin. }
  split; [exact Hinv|].
  intros payload pq cached Hpq Hver Hquery Hhash Hget.
  assert (Hdoc : exists document, cached = Document document).
  { simpl in Hget. apply LRU_get_hit in Hget as (e & Hin & _ & <- & _).
    apply Hinv, Hin. }
  destruct Hdoc as [document ->]. exists document. split; [reflexivity|].
  rewrite (onParse_lookup createHash p payload pq w Hpq Hver Hquery), Hhash.
  destruct (get (methods (store p)) (now w) (hash pq) (store_state w))
    as [cachedQuery st].
  simpl in Hget. subst cachedQuery. simpl. split; reflexivity.
Qed.

End Own_store.

(** ** Further properties on concrete requests *)

(** X2 at a plugin configured for md5 and a request that carries the
    sha256 hash of its text. *)
Lemma X2_hash_under_another_algorithm_witness :
  onParse checksum_createHash md5_plugin matching_request (fresh_world md5_plugin)
    = (Throw (HASH_MISMATCH_error md5_plugin), fresh_world md5_plugin).
Proof.
  apply (X2_hash_under_another_algorithm checksum_createHash _ matching_request
           sha256 hello_hash (fresh_world md5_plugin));
    [reflexivity | discriminate | vm_compute; reflexivity].
Defined.

(** X3 at a request whose version is the text ["2"]: it resolves, though
    the expected version is 1. *)
Lemma X3_non_number_version_passes_witness :
  onParse checksum_createHash (useAutomaticPersistedQueries (Some no_options))
          text_version_request
          (fresh_world (useAutomaticPersistedQueries (Some no_options)))
    = (Normal (Some (after_parse (JsString hello_hash))),
       fresh_world (useAutomaticPersistedQueries (Some no_options))).
Proof.
  refine (proj2 (proj2
            (X3_non_number_version_passes checksum_createHash no_options
               text_version_request
               (list_to_map [("version", JsString "2");
                             ("sha256Hash", JsString hello_hash)])
               (JsString "2") (JsString hello_hash)
               (fresh_world (useAutomaticPersistedQueries (Some no_options)))
               _ _ _ _ _ _ _ _)) hello_query _ _);
    first [reflexivity | discriminate | vm_compute; reflexivity].
Defined.

(** X4 at a hash sent alone to a plugin whose store is empty. *)
Lemma X4_error_table_witness :
  thrown_code (fst (onParse checksum_createHash default_plugin hash_only_request
                            (fresh_world default_plugin)))
    = Some codes.NOT_FOUND.
Proof.
  apply (X4_error_table checksum_createHash default_plugin hash_only_request
           (Some {| hash := JsString hello_hash; version := JsNumber 1 |})
           (fresh_world default_plugin));
    [vm_compute; reflexivity|].
  eexists. repeat split; vm_compute; reflexivity.
Defined.

(** X5 at a text sent under a hash that the store holds. *)
Lemma X5_text_leaves_the_world_witness :
  snd (onParse checksum_createHash shared_store_plugin matching_request
               (world_holding shared_store_plugin hello_hash (Document hello_query)))
    = world_holding shared_store_plugin hello_hash (Document hello_query).
Proof.
  apply (X5_text_leaves_the_world checksum_createHash shared_store_plugin
           matching_request hello_query).
  reflexivity.
Defined.

(** X8 at the default plugin: the text under its hash, then the hash alone
    five minutes later. *)
Lemma X8_register_then_lookup_witness :
  let w := fresh_world default_plugin in
  let later := run_calls checksum_createHash default_plugin first_exchange w in
  fst (onParse checksum_createHash default_plugin hash_only_request later)
    = Normal None
  /\
  parsed_document
    (snd (onParse checksum_createHash default_plugin hash_only_request later))
    = Some hello_query.
Proof.
  intros w later.
  apply (X8_register_then_lookup checksum_createHash default_plugin
           matching_request hash_only_request
           {| hash := JsString hello_hash; version := JsNumber 1 |}
           hello_query hello_query w later);
    first [apply checksum_createHash_size | vm_compute; reflexivity].
Defined.

(** X9 at a text sent under its hash. *)
Lemma X9_saved_under_own_hash_witness :
  exists text,
    query_of_source (source matching_request) = Some text /\
    forall (document : string) w1,
      store_calls (snd (run_after_parse default_plugin
                          (after_parse (JsString hello_hash))
                          (result_document document) w1))
        = (store_calls w1 ++
           [Call_put (JsString (generateHash checksum_createHash text sha256))
                     (Document document)])%list /\
      store_state (snd (run_after_parse default_plugin
                          (after_parse (JsString hello_hash))
                          (result_document document) w1))
        = put (methods (store default_plugin)) (now w1)
              (JsString (generateHash checksum_createHash text sha256))
              (Document document) (store_state w1).
Proof.
  apply (X9_saved_under_own_hash checksum_createHash default_plugin
           matching_request (after_parse (JsString hello_hash))
           (fresh_world default_plugin));
    [apply checksum_createHash_size | vm_compute; reflexivity].
Defined.

(** X10 at the hash of the text in upper case. *)
Lemma X10_hash_compared_exactly_witness :
  onParse checksum_createHash default_plugin upper_case_request
          (fresh_world default_plugin)
    = (Throw (HASH_MISMATCH_error default_plugin), fresh_world default_plugin).
Proof.
  apply (X10_hash_compared_exactly checksum_createHash default_plugin
           upper_case_request
           {| hash := JsString upper_hello_hash; version := JsNumber 1 |}
           hello_query upper_hello_hash (fresh_world default_plugin));
    [apply checksum_createHash_size | vm_compute; reflexivity .. |].
  right. exists "C"%char. split; [vm_compute; tauto | reflexivity].
Defined.

(** X11 at a text sent under its hash, with and without a parser. *)
Lemma X11_parser_only_for_stored_text_witness :
  onParse checksum_createHash default_plugin matching_request
          (fresh_world default_plugin)
    = onParse checksum_createHash default_plugin matching_request_no_parser
              (fresh_world default_plugin).
Proof.
  apply (X11_parser_only_for_stored_text checksum_createHash default_plugin
           (context matching_request) (source matching_request)
           braces_parseFn (fun _ => inr "no parser")
           (fresh_world default_plugin)).
  left. eexists. reflexivity.
Defined.

(** X12 after the first exchange with a client: the store holds the
    document, and the hash alone resolves to it. *)
Example X12_example :
  let w := run_calls checksum_createHash default_plugin first_exchange
                     (fresh_world default_plugin) in
  map value (items (store_state w)) = [Document hello_query]
  /\ fst (onParse checksum_createHash default_plugin hash_only_request w)
     = Normal None.
Proof. split; vm_compute; reflexivity. Qed.
